(** * wiretime: packet wire-latency measurement

    A shallow embedding of [wiretime.c]: the statistics engine
    ([update_statistics], [print_statistics]), the error-queue reader
    ([recv_timestamp]), the period arithmetic of [synchronize] and
    [normalize], and the measurement loop of [main].

    Integer model (Linux, LP64): [long], [long long] and [time_t] are 64-bit
    two's complement, [size_t] is 64-bit unsigned, [uint16_t] is 16-bit
    unsigned.  Values are carried as [Z]; a result that can leave the range
    of its type is reduced by [wrap_long], [wrap_size] or [wrap_u16].
    Signed overflow, undefined in C, is taken as wrap-around; the
    statements that depend on signed arithmetic name the ranges in which
    none occurs. *)

From Stdlib Require Import ZArith List Lia Bool.
From stdpp Require Import base tactics list sorting.
From Equations Require Import Equations.

Local Open Scope Z_scope.

(** ** Machine integers *)

Module CInt.

Definition LONG_MAX : Z := 2 ^ 63 - 1.
Definition LONG_MIN : Z := - 2 ^ 63.

(** Reduction of a mathematical integer into [long]. *)
Definition wrap_long (z : Z) : Z := (z + 2 ^ 63) mod 2 ^ 64 - 2 ^ 63.

(** Reduction into [size_t]. *)
Definition wrap_size (z : Z) : Z := z mod 2 ^ 64.

(** Reduction into [uint16_t]. *)
Definition wrap_u16 (z : Z) : Z := z mod 65536.

Definition in_long (z : Z) : Prop := LONG_MIN <= z <= LONG_MAX.
Definition in_size (z : Z) : Prop := 0 <= z < 2 ^ 64.

End CInt.
Import CInt.

(** ** Data *)

(** [struct timespec]. *)
Record timespec := Timespec { tv_sec : Z; tv_nsec : Z }.

Definition ts_zero : timespec := Timespec 0 0.

#[global] Instance timespec_inhabited : Inhabited timespec := populate ts_zero.

#[global] Instance timespec_eq_dec : EqDecision timespec.
Proof. solve_decision. Defined.

(** [struct scm_timestamping]: the array [ts[3]]. *)
Record scm_timestamping := ScmTimestamping { ts : list timespec }.

(** [struct sock_extended_err]; only [ee_info] is read. *)
Record sock_extended_err := SockExtendedErr { ee_info : Z }.

(** One control message.  [CMSG_DATA] is an untyped byte area which the
    reader casts according to level and type; [data_tstamps] and
    [data_serr] are the two views of that area the casts produce. *)
Record cmsghdr := Cmsg {
  cmsg_level : Z;
  cmsg_type : Z;
  data_tstamps : scm_timestamping;
  data_serr : sock_extended_err
}.

(** A message of the socket's error queue, as its chain of control
    messages ([CMSG_FIRSTHDR] .. [CMSG_NXTHDR]). *)
Definition msghdr := list cmsghdr.

(** Constants of the Linux headers ([asm-generic/socket.h], [linux/in.h],
    [linux/errqueue.h]) that the program includes. *)
Definition SOL_SOCKET : Z := 1.
Definition SCM_TIMESTAMPING : Z := 37.
Definition SOL_IP : Z := 0.
Definition IP_RECVERR : Z := 11.
Definition SCM_TSTAMP_SND : Z := 0.
Definition SCM_TSTAMP_SCHED : Z := 1.

Definition NSAMPLES : Z := 1024.
Definition NBINS : nat := 12.
Definition BIN0 : Z := 32.
Definition BILLION : Z := 1000000000.

(** What the program writes, one constructor per output statement. *)
Inductive output :=
| Trace_slack                       (* trace_marker: starting slack time *)
| Trace_cycle                       (* trace_marker: starting cycle *)
| Trace_latency (latency : Z)       (* trace_marker: %6ld us latency *)
| Sock_write (buf : list Z)               (* write(sockfd, buf, sizeof(buf)) *)
| Err_write                         (* perror("write") *)
| Err_short_write                   (* stderr: short write *)
| Err_missing (i : nat)             (* stderr: MISSING TIMESTAMP i *)
| Snapshot_write                    (* snapshot: 1 *)
| Err_snapshot_taken                (* stderr: SNAPSHOT TAKEN! *)
| Err_seq (seq : Z) (t0 t1 t2 : timespec) (latency : Z) (snapshotted : bool)
| Out_transmitted (n : Z)           (* stdout: %zu packets transmitted *)
| Out_latency (mn med mx : Z)       (* stdout: latency min/median/max *)
| Out_distribution                  (* stdout: distribution: *)
| Out_bin (low high count : Z)      (* stdout: low - high us: count *)
| Out_last_bin (low count : Z).     (* stdout: > low us: count *)

(** The file-scope variables, [main]'s [seqid], the socket's error queue
    and the output written so far. *)
Record state := State {
  num_packets : Z;
  min_lat : Z;
  max_lat : Z;
  samples : list Z;
  bins : list Z;
  tstamps : list timespec;
  seqid : Z;
  errqueue : list msghdr;
  out : list output
}.

Definition set_num_packets (v : Z) (st : state) : state :=
  State v (min_lat st) (max_lat st) (samples st) (bins st) (tstamps st)
        (seqid st) (errqueue st) (out st).
Definition set_min_lat (v : Z) (st : state) : state :=
  State (num_packets st) v (max_lat st) (samples st) (bins st) (tstamps st)
        (seqid st) (errqueue st) (out st).
Definition set_max_lat (v : Z) (st : state) : state :=
  State (num_packets st) (min_lat st) v (samples st) (bins st) (tstamps st)
        (seqid st) (errqueue st) (out st).
Definition set_samples (v : list Z) (st : state) : state :=
  State (num_packets st) (min_lat st) (max_lat st) v (bins st) (tstamps st)
        (seqid st) (errqueue st) (out st).
Definition set_bins (v : list Z) (st : state) : state :=
  State (num_packets st) (min_lat st) (max_lat st) (samples st) v (tstamps st)
        (seqid st) (errqueue st) (out st).
Definition set_tstamps (v : list timespec) (st : state) : state :=
  State (num_packets st) (min_lat st) (max_lat st) (samples st) (bins st) v
        (seqid st) (errqueue st) (out st).
Definition set_seqid (v : Z) (st : state) : state :=
  State (num_packets st) (min_lat st) (max_lat st) (samples st) (bins st)
        (tstamps st) v (errqueue st) (out st).
Definition set_errqueue (v : list msghdr) (st : state) : state :=
  State (num_packets st) (min_lat st) (max_lat st) (samples st) (bins st)
        (tstamps st) (seqid st) v (out st).
Definition emit (o : output) (st : state) : state :=
  State (num_packets st) (min_lat st) (max_lat st) (samples st) (bins st)
        (tstamps st) (seqid st) (errqueue st) (out st ++ [o]).

(** State at program start: statics are zero-initialised, the extrema
    hold their sentinels, [seqid = 0], nothing queued or written. *)
Definition init : state :=
  State 0 LONG_MAX LONG_MIN (replicate (Z.to_nat NSAMPLES) 0)
        (replicate NBINS 0) (replicate 3 ts_zero) 0 [] [].

(** The arrays have their declared sizes. *)
Definition wf_state (st : state) : Prop :=
  length (samples st) = Z.to_nat NSAMPLES /\
  length (bins st) = NBINS /\
  length (tstamps st) = 3%nat.

(** ** Statistics: [update_statistics] *)

(** [++a[i]] on an array of [size_t]. *)
Definition incr_at (i : nat) (a : list Z) : list Z :=
  <[i := wrap_size (a !!! i + 1)]> a.

(** The bucket loop, entered at index [i] with [n] iterations left; on
    exhaustion the last bucket is incremented. *)
Fixpoint bins_loop (latency : Z) (i n : nat) (b : list Z) : list Z :=
  match n with
  | O => incr_at (NBINS - 1) b
  | S n' =>
      if latency <? BIN0 * Z.shiftl 1 (Z.of_nat i)
      then incr_at i b
      else bins_loop latency (S i) n' b
  end.

Definition update_statistics (latency : Z) (st : state) : state :=
  let st := if latency <? min_lat st then set_min_lat latency st else st in
  let st := if max_lat st <? latency then set_max_lat latency st else st in
  let st :=
    set_samples
      (<[Z.to_nat (Z.land (num_packets st) (NSAMPLES - 1)) := latency]>
         (samples st)) st in
  set_bins (bins_loop latency 0 (NBINS - 1) (bins st)) st.

(** ** Statistics: [print_statistics] *)

(** The comparison callback handed to [qsort]. *)
Definition compar (p q : Z) : Z :=
  if p <? q then -1 else if q <? p then 1 else 0.

(** [p] may stand before [q] in an array sorted with [compar]. *)
Definition compar_le (p q : Z) : Prop := compar p q <= 0.

#[global] Instance compar_le_dec : RelDecision compar_le.
Proof. intros p q. unfold compar_le. apply Z_le_dec. Defined.

(** [qsort(base, n, sizeof(long), compar)] on the array prefix [l]: a
    rearrangement in which [compar] orders neighbours.  For [long]
    keys the result does not depend on the sorting algorithm. *)
Definition qsort (l : list Z) : list Z := merge_sort compar_le l.

(** The distribution rows: [n] iterations from bucket [i]. *)
Fixpoint print_bins (b : list Z) (i n : nat) (low high : Z) (st : state)
  : state :=
  match n with
  | O => emit (Out_last_bin (wrap_long (low - 1)) (b !!! (NBINS - 1)%nat)) st
  | S n' =>
      print_bins b (S i) n' (wrap_long (high + 1)) (wrap_long (Z.shiftl high 1))
                 (emit (Out_bin low high (b !!! i)) st)
  end.

Definition print_statistics (st : state) : state :=
  let st :=
    if num_packets st =? 0 then st
    else set_num_packets (wrap_size (num_packets st - 1)) st in
  let st := emit (Out_transmitted (num_packets st)) st in
  if num_packets st =? 0 then st
  else
    let n := if NSAMPLES <? num_packets st then NSAMPLES else num_packets st in
    let k := Z.to_nat n in
    let st := set_samples (qsort (take k (samples st)) ++ drop k (samples st)) st in
    let st :=
      emit (Out_latency (min_lat st)
                        (samples st !!! Z.to_nat (n / 2))
                        (max_lat st)) st in
    let st := emit Out_distribution st in
    print_bins (bins st) 0 (NBINS - 1) 0 BIN0 st.

(** ** The error-queue reader: [recv_timestamp] *)

(** [recvmsg(sockfd, &msgh, MSG_ERRQUEUE)]: takes the message at the head
    of the error queue; on an empty queue the call fails ([EAGAIN]) and
    [recv_timestamp] returns at once. *)
Definition recvmsg (q : list msghdr) : option (msghdr * list msghdr) :=
  match q with
  | [] => None
  | m :: q' => Some (m, q')
  end.

(** The two tests of the loop over the control messages. *)
Definition is_timestamping (c : cmsghdr) : bool :=
  (cmsg_level c =? SOL_SOCKET) && (cmsg_type c =? SCM_TIMESTAMPING).

Definition is_recverr (c : cmsghdr) : bool :=
  (cmsg_level c =? SOL_IP) && (cmsg_type c =? IP_RECVERR).

(** The loop over the control messages, with the two pointers it sets. *)
Fixpoint scan_cmsgs (cs : list cmsghdr)
    (tstamps_local : option scm_timestamping)
    (serr : option sock_extended_err)
  : option scm_timestamping * option sock_extended_err :=
  match cs with
  | [] => (tstamps_local, serr)
  | c :: cs' =>
      if is_timestamping c
      then scan_cmsgs cs' (Some (data_tstamps c)) serr
      else if is_recverr c
      then scan_cmsgs cs' tstamps_local (Some (data_serr c))
      else scan_cmsgs cs' tstamps_local serr
  end.

(** The assignments to [tstamps] once both pointers are set. *)
Definition store_timestamp (tl : scm_timestamping) (serr : sock_extended_err)
    (st : state) : state :=
  if ee_info serr =? SCM_TSTAMP_SCHED
  then set_tstamps (<[0%nat := ts tl !!! 0%nat]> (tstamps st)) st
  else if (ee_info serr =? SCM_TSTAMP_SND)
          && negb (tv_sec (ts tl !!! 0%nat) =? 0)
  then set_tstamps (<[1%nat := ts tl !!! 0%nat]> (tstamps st)) st
  else if (ee_info serr =? SCM_TSTAMP_SND)
          && negb (tv_sec (ts tl !!! 2%nat) =? 0)
  then set_tstamps (<[2%nat := ts tl !!! 2%nat]> (tstamps st)) st
  else st.

Definition recv_timestamp (st : state) : state :=
  match recvmsg (errqueue st) with
  | None => st
  | Some (m, q') =>
      let st := set_errqueue q' st in
      match scan_cmsgs m None None with
      | (Some tl, Some serr) => store_timestamp tl serr st
      | _ => st
      end
  end.

(** ** The cycle clock: [normalize] and [synchronize] *)

(** The [while] loop of [normalize].  [tv_nsec - BILLION] cannot overflow
    under the loop condition; [tv_sec++] is reduced into [long]. *)
Equations? normalize (t : timespec) : timespec
  by wf (Z.to_nat (tv_nsec t / BILLION)) lt :=
  normalize t with Z_le_gt_dec BILLION (tv_nsec t) := {
    | left _ =>
        normalize (Timespec (wrap_long (tv_sec t + 1)) (tv_nsec t - BILLION));
    | right _ => t }.
Proof.
  simpl. unfold BILLION in *.
  replace (tv_nsec t - 1000000000) with (tv_nsec t + (-1) * 1000000000) by lia.
  rewrite Z.div_add by lia.
  assert (1 <= tv_nsec t / 1000000000) by (apply Z.div_le_lower_bound; lia).
  lia.
Qed.

(** The value of [next] that [synchronize] waits for, from the clock
    reading [now]. *)
Definition synchronize_next (now : timespec) (period addend : Z) : timespec :=
  let next_sec := tv_sec now in
  let next_nsec :=
    wrap_long (wrap_long (Z.quot (tv_nsec now) period + 1) * period) in
  let next_nsec := wrap_long (next_nsec + addend) in
  normalize (Timespec next_sec next_nsec).

(** What happens on the socket while [synchronize] waits: the kernel
    queues a message, or [pselect] reports the descriptor ready and the
    callback is invoked. *)
Inductive wait_event :=
| Arrival (m : msghdr)
| Readable.

(** The effect of the wait loop of [synchronize] on the program state,
    with [recv_timestamp] as its callback.  How long the loop runs is
    decided by the clock and is given here by the list of events. *)
Fixpoint synchronize (events : list wait_event) (st : state) : state :=
  match events with
  | [] => st
  | Arrival m :: rest =>
      synchronize rest (set_errqueue (errqueue st ++ [m]) st)
  | Readable :: rest => synchronize rest (recv_timestamp st)
  end.

(** [timeout.tv_nsec] as handed to [pselect] in a round of the wait
    loop: the time left until [next], less its 1024th part. *)
Definition wait_timeout (next now : timespec) : Z :=
  let t :=
    wrap_long (wrap_long (wrap_long (tv_sec next - tv_sec now) * BILLION)
               + wrap_long (tv_nsec next - tv_nsec now)) in
  wrap_long (t - Z.quot t 1024).

(** [error] after a wake-up at [now]. *)
Definition wait_error (now next : timespec) : Z :=
  wrap_long (wrap_long (wrap_long (tv_sec now - tv_sec next) * BILLION)
             + wrap_long (tv_nsec now - tv_nsec next)).

(** The condition of the [do ... while]: another round is needed. *)
Definition wait_again (now next : timespec) : bool :=
  wait_error now next <? -50000.

(** ** The measurement loop: [main] *)

(** The validated command line and the two trace files ([true]: opened). *)
Record config := Config {
  period : Z;
  addend : Z;
  threshold : Z;
  snapshot : bool;
  trace_marker : bool
}.

(** The three range checks on the arguments. *)
Definition valid_args (cfg : config) : bool :=
  negb (period cfg <=? 0) && negb (addend cfg <? 0)
  && negb (threshold cfg <? 0).

(** What the environment contributes to one iteration: the events of the
    wait and the return value of [write]. *)
Record cycle_input := CycleInput {
  wait_events : list wait_event;
  written : Z
}.

(** [buf] with [htons(seqid)] stored at offset 30. *)
Definition payload (seq : Z) : list Z :=
  <[31%nat := seq mod 256]>
    (<[30%nat := seq / 256]> (<[1%nat := 2]> (replicate 44 0))).

Definition emit_if (b : bool) (o : output) (st : state) : state :=
  if b then emit o st else st.

(** [tstamps[i].tv_sec] as a truth value. *)
Definition stamped (i : nat) (st : state) : bool :=
  negb (tv_sec (tstamps st !!! i) =? 0).

Definition all_stamped (st : state) : bool :=
  stamped 0 st && stamped 1 st && stamped 2 st.

(** The initialiser of [latency]: [long] differences, a [long long]
    product and sum, the quotient truncated toward zero. *)
Definition latency_of (st : state) : Z :=
  let t0 := tstamps st !!! 0%nat in
  let t2 := tstamps st !!! 2%nat in
  wrap_long
    (Z.quot
       (wrap_long (wrap_long (wrap_long (tv_sec t2 - tv_sec t0) * 1000000000)
                   + wrap_long (tv_nsec t2 - tv_nsec t0)))
       1000).

(** From the top of an iteration to the return of [write]. *)
Definition transmit (cfg : config) (inp : cycle_input) (st : state) : state :=
  let buf := payload (seqid st) in
  let st := emit_if (trace_marker cfg) Trace_slack st in
  let st := synchronize (wait_events inp) st in
  let st := emit_if (trace_marker cfg) Trace_cycle st in
  let st := emit (Sock_write buf) st in
  if written inp <? 0 then emit Err_write st
  else if negb (written inp =? 44) then emit Err_short_write st
  else st.

(** The body of [if (num_packets)].  The flag tells whether the iteration
    was left by [continue]. *)
Definition evaluate (cfg : config) (st : state) : state * bool :=
  if negb (all_stamped st) then
    let st := emit_if (negb (stamped 0 st)) (Err_missing 0) st in
    let st := emit_if (negb (stamped 1 st)) (Err_missing 1) st in
    let st := emit_if (negb (stamped 2 st)) (Err_missing 2) st in
    let st :=
      if snapshot cfg then emit Err_snapshot_taken (emit Snapshot_write st)
      else st in
    (st, true)
  else
    let latency := latency_of st in
    let st := emit_if (trace_marker cfg) (Trace_latency latency) st in
    let snapshotted :=
      snapshot cfg && negb (threshold cfg =? 0) && (threshold cfg <? latency) in
    let st := emit_if snapshotted Snapshot_write st in
    let st :=
      emit (Err_seq (seqid st) (tstamps st !!! 0%nat) (tstamps st !!! 1%nat)
                    (tstamps st !!! 2%nat) latency snapshotted) st in
    let st := if 1 <? num_packets st then update_statistics latency st else st in
    (st, false).

(** The three statements that close an iteration. *)
Definition next_cycle (st : state) : state :=
  let st := set_seqid (wrap_u16 (seqid st + 1)) st in
  let st := set_tstamps (replicate 3 ts_zero) st in
  set_num_packets (wrap_size (num_packets st + 1)) st.

(** One iteration of [while (1)]. *)
Definition cycle (cfg : config) (inp : cycle_input) (st : state) : state :=
  let st := transmit cfg inp st in
  if negb (num_packets st =? 0) then
    let '(st, continued) := evaluate cfg st in
    if continued then st else next_cycle st
  else next_cycle st.

(** The iterations run before the terminating signal, one per input. *)
Fixpoint main_loop (cfg : config) (inputs : list cycle_input) (st : state)
  : state :=
  match inputs with
  | [] => st
  | inp :: rest => main_loop cfg rest (cycle cfg inp st)
  end.

(** [main] up to the exit hook: argument checks, the loop, and the report
    printed by [print_statistics] when the signal handler calls [exit].
    [None] is the early [exit(EXIT_FAILURE)]. *)
Definition main (cfg : config) (inputs : list cycle_input) : option state :=
  if valid_args cfg then Some (print_statistics (main_loop cfg inputs init))
  else None.

(** ** Views used by the statements *)

(** The lines written between two states of one execution. *)
Definition emitted (st st' : state) : list output :=
  drop (length (out st)) (out st').

(** Total nanoseconds of a time. *)
Definition total_ns (t : timespec) : Z := tv_sec t * BILLION + tv_nsec t.

(** The statistics part of the state. *)
Definition statistics (st : state) : Z * Z * list Z * list Z :=
  (min_lat st, max_lat st, samples st, bins st).

(** The latencies computed during a run, in order: one for each
    iteration that evaluates a record with all three stamps. *)
Fixpoint run_latencies (cfg : config) (inputs : list cycle_input)
    (st : state) : list Z :=
  match inputs with
  | [] => []
  | inp :: rest =>
      let st1 := transmit cfg inp st in
      (if negb (num_packets st1 =? 0) && all_stamped st1
       then [latency_of st1] else [])
      ++ run_latencies cfg rest (cycle cfg inp st)
  end.

(** The counted samples of a run in the specification's sense: the
    latencies of the cycles that are neither anomalous nor the first
    completed one. *)
Definition counted_samples (cfg : config) (inputs : list cycle_input)
  : list Z :=
  tail (run_latencies cfg inputs init).

(** The median printed by the report, if one is printed. *)
Fixpoint reported_median (o : list output) : option Z :=
  match o with
  | [] => None
  | Out_latency _ med _ :: _ => Some med
  | _ :: rest => reported_median rest
  end.

(** The collector as the specification describes it: after one call no
    message is left on the queue. *)
Definition drains_queue (st : state) : Prop :=
  errqueue (recv_timestamp st) = [].

(** The three assignment rules read independently of each other, with
    [old] and [new] the record before and after the message. *)
Definition rules_independent (tl : scm_timestamping)
    (serr : sock_extended_err) (new : list timespec) : Prop :=
  (ee_info serr = SCM_TSTAMP_SCHED -> new !!! 0%nat = ts tl !!! 0%nat) /\
  (ee_info serr = SCM_TSTAMP_SND -> tv_sec (ts tl !!! 0%nat) <> 0 ->
   new !!! 1%nat = ts tl !!! 0%nat) /\
  (ee_info serr = SCM_TSTAMP_SND -> tv_sec (ts tl !!! 2%nat) <> 0 ->
   new !!! 2%nat = ts tl !!! 2%nat).

(** The line written by a guarded output statement. *)
Definition when (b : bool) (o : output) : list output :=
  if b then [o] else [].

(** The cycle under evaluation is reported with latency [L]. *)
Definition reports_latency (cfg : config) (st : state) (L : Z) : Prop :=
  exists seq t0 t1 t2 s,
    Err_seq seq t0 t1 t2 L s ∈ emitted st (evaluate cfg st).1.

(** The part of the state that the clock, the collector and the output
    statements leave alone. *)
Definition untouched (st st' : state) : Prop :=
  num_packets st' = num_packets st /\ seqid st' = seqid st /\
  statistics st' = statistics st.

(** The statistics engine fed a list of latencies, one per counted
    cycle, with the cycle count advancing as the loop advances it. *)
Fixpoint feed (latencies : list Z) (st : state) : state :=
  match latencies with
  | [] => st
  | L :: rest =>
      feed rest (set_num_packets (wrap_size (num_packets st + 1))
                                 (update_statistics L st))
  end.

(** The report as the specification describes it: the median is the
    entry at index [k/2] of the ascending sort of the [k] counted
    samples, and the window is left as it was. *)
Definition median_of_counted_copy (cfg : config) (inputs : list cycle_input)
  : Prop :=
  let st := main_loop cfg inputs init in
  let counted := counted_samples cfg inputs in
  let k := length counted in
  (0 < k <= 1024)%nat ->
  reported_median (emitted st (print_statistics st))
  = Some (qsort counted !!! (k / 2)%nat) /\
  samples (print_statistics st) = samples st.


(** The wake target as the specification words it: the smallest multiple
    of the period at or after [now] in total nanoseconds, plus the
    offset. *)
Definition ceiling_target (now : timespec) (P A : Z) : Z :=
  (total_ns now + P - 1) / P * P + A.

(** ** Sample inputs *)

(** An error-queue message as the kernel builds it: a timestamping
    control message with [ts[0] = t0], [ts[2] = t2], and an extended
    error with [ee_info = info]. *)
Definition tstamp_msg (info : Z) (t0 t2 : timespec) : msghdr :=
  [Cmsg SOL_SOCKET SCM_TIMESTAMPING
        (ScmTimestamping [t0; ts_zero; t2]) (SockExtendedErr 0);
   Cmsg SOL_IP IP_RECVERR (ScmTimestamping []) (SockExtendedErr info)].

Definition queued (q : list msghdr) : state := set_errqueue q init.

(** A transmit notification with both the software and the hardware
    slot filled. *)
Definition both_slots : scm_timestamping :=
  ScmTimestamping [Timespec 1 0; ts_zero; Timespec 2 0].

(** The record of the specification's end-to-end example, taken
    literally: 0 ns, 50000 ns and 120000 ns on the timestamp clock. *)
Definition literal_example : state :=
  set_tstamps [Timespec 0 0; Timespec 0 50000; Timespec 0 120000]
    (set_num_packets 1 init).

(** The same three stamps one second after the clock's origin. *)
Definition shifted_example : list timespec :=
  [Timespec 1 0; Timespec 1 50000; Timespec 1 120000].

Definition example_cfg : config := Config 1000000 150000 1000 true true.

(** The first iteration: nothing has been sent yet, so nothing arrives. *)
Definition first_cycle : cycle_input := CycleInput [] 44.

(** An iteration in which the three notifications of the previous packet
    arrive and are read. *)
Definition stamps_arrive (sched driver wire : timespec) : cycle_input :=
  CycleInput
    [Arrival (tstamp_msg SCM_TSTAMP_SCHED sched ts_zero); Readable;
     Arrival (tstamp_msg SCM_TSTAMP_SND driver ts_zero); Readable;
     Arrival (tstamp_msg SCM_TSTAMP_SND ts_zero wire); Readable] 44.

(** A complete cycle with the given latency in microseconds. *)
Definition complete (us : Z) : cycle_input :=
  stamps_arrive (Timespec 1 0) (Timespec 1 50000) (Timespec 1 (us * 1000)).

(** An iteration in which only the scheduler notification arrives. *)
Definition sched_only : cycle_input :=
  CycleInput [Arrival (tstamp_msg SCM_TSTAMP_SCHED (Timespec 1 0) ts_zero);
              Readable] 44.

(** A run of three iterations: the first completed cycle takes 500 us,
    the only counted one 900 us. *)
Definition short_run : list cycle_input :=
  [first_cycle; complete 500; complete 900].

(** A run of five iterations: the first completed cycle takes 500 us,
    the three counted ones 300, 200 and 250 us. *)
Definition sample_run : list cycle_input :=
  [first_cycle; complete 500; complete 300; complete 200; complete 250].

(** ** Views used by the further properties *)

(** The number of written lines of one kind. *)
Fixpoint count_lines (f : output -> bool) (l : list output) : nat :=
  match l with
  | [] => 0%nat
  | o :: rest => ((if f o then 1 else 0) + count_lines f rest)%nat
  end.

Definition is_sock_write (o : output) : bool :=
  match o with Sock_write _ => true | _ => false end.

Definition is_snapshot_write (o : output) : bool :=
  match o with Snapshot_write => true | _ => false end.

Definition is_trace (o : output) : bool :=
  match o with
  | Trace_slack | Trace_cycle | Trace_latency _ => true
  | _ => false
  end.

Definition is_missing (o : output) : bool :=
  match o with Err_missing _ => true | _ => false end.

(** The sum of the histogram counters. *)
Definition bins_total (b : list Z) : Z := foldr Z.add 0 b.

(** The messages that arrive during a wait, and the number of readiness
    reports in it. *)
Fixpoint arrivals (events : list wait_event) : list msghdr :=
  match events with
  | [] => []
  | Arrival m :: rest => m :: arrivals rest
  | Readable :: rest => arrivals rest
  end.

Fixpoint readables (events : list wait_event) : nat :=
  match events with
  | [] => 0%nat
  | Arrival _ :: rest => readables rest
  | Readable :: rest => S (readables rest)
  end.

(** The lines one iteration writes before and during the evaluation. *)
Definition transmit_lines (cfg : config) (inp : cycle_input) (st : state)
  : list output :=
  when (trace_marker cfg) Trace_slack ++ when (trace_marker cfg) Trace_cycle
  ++ Sock_write (payload (seqid st))
     :: (if written inp <? 0 then [Err_write]
         else if negb (written inp =? 44) then [Err_short_write] else []).

Definition evaluate_lines (cfg : config) (st : state) : list output :=
  emitted st (evaluate cfg st).1.

(** The number of stages without a stamp. *)
Definition unstamped (st : state) : nat :=
  ((if stamped 0 st then 0 else 1) + (if stamped 1 st then 0 else 1)
   + (if stamped 2 st then 0 else 1))%nat.

(** A time as the kernel hands it out: nanoseconds within one second,
    seconds far inside the range of [long]. *)
Definition clock_reading (t : timespec) : Prop :=
  0 <= tv_sec t <= 2 ^ 31 /\ 0 <= tv_nsec t < BILLION.

(** The twelve rows of the printed distribution, for the counters [b]. *)
Definition distribution_rows (b : list Z) : list output :=
  [Out_bin 0 32 (b !!! 0%nat); Out_bin 33 64 (b !!! 1%nat);
   Out_bin 65 128 (b !!! 2%nat); Out_bin 129 256 (b !!! 3%nat);
   Out_bin 257 512 (b !!! 4%nat); Out_bin 513 1024 (b !!! 5%nat);
   Out_bin 1025 2048 (b !!! 6%nat); Out_bin 2049 4096 (b !!! 7%nat);
   Out_bin 4097 8192 (b !!! 8%nat); Out_bin 8193 16384 (b !!! 9%nat);
   Out_bin 16385 32768 (b !!! 10%nat); Out_last_bin 32768 (b !!! 11%nat)].

(** ** Proof steps *)

(** Range side conditions are linear once the bounds are unfolded. *)
Ltac in_range := unfold in_long, in_size, LONG_MIN, LONG_MAX in *; lia.

(** Case analysis on every condition of the goal. *)
Ltac case_conditions :=
  repeat match goal with
         | |- context [if ?c then _ else _] => destruct c
         end.

(** * Properties *)

(** ** Machine integers *)

Lemma wrap_long_id z : in_long z -> wrap_long z = z.
Proof.
  unfold in_long, LONG_MIN, LONG_MAX, wrap_long. intros H.
  rewrite Z.mod_small; lia.
Qed.

Lemma wrap_size_id z : in_size z -> wrap_size z = z.
Proof. unfold in_size, wrap_size. intros H. apply Z.mod_small. exact H. Qed.

Lemma shiftl_one (i : nat) : Z.shiftl 1 (Z.of_nat i) = 2 ^ Z.of_nat i.
Proof. rewrite Z.shiftl_1_l. reflexivity. Qed.

(** ** The arrays keep their sizes *)

Lemma length_incr_at i a : length (incr_at i a) = length a.
Proof. unfold incr_at. apply length_insert. Qed.

Lemma length_bins_loop L n : forall i b, length (bins_loop L i n b) = length b.
Proof.
  induction n as [|n IH]; intros i b; simpl.
  - apply length_incr_at.
  - destruct (L <? _); [apply length_incr_at | apply IH].
Qed.

Lemma wf_init : wf_state init.
Proof. repeat split. Qed.

Lemma bins_update_statistics L st :
  bins (update_statistics L st) = bins_loop L 0 (NBINS - 1) (bins st).
Proof.
  unfold update_statistics.
  destruct (L <? min_lat st); destruct (_ <? L); reflexivity.
Qed.

Lemma samples_update_statistics L st :
  samples (update_statistics L st) =
  <[Z.to_nat (Z.land (num_packets st) (NSAMPLES - 1)) := L]> (samples st).
Proof.
  unfold update_statistics.
  destruct (L <? min_lat st); destruct (_ <? L); reflexivity.
Qed.

Lemma tstamps_update_statistics L st :
  tstamps (update_statistics L st) = tstamps st.
Proof.
  unfold update_statistics.
  destruct (L <? min_lat st); destruct (_ <? L); reflexivity.
Qed.

Lemma wf_update_statistics L st :
  wf_state st -> wf_state (update_statistics L st).
Proof.
  intros (Hs & Hb & Ht). unfold wf_state.
  rewrite bins_update_statistics, samples_update_statistics,
    tstamps_update_statistics, length_insert, length_bins_loop.
  auto.
Qed.

(** ** The histogram *)

Lemma lookup_incr_at (i j : nat) (a : list Z) :
  (i < length a)%nat ->
  incr_at i a !!! j = if decide (j = i) then wrap_size (a !!! j + 1) else a !!! j.
Proof.
  intros Hi. unfold incr_at. rewrite list_lookup_total_insert.
  destruct (decide (j = i)) as [->|Hne].
  - rewrite decide_True by auto. reflexivity.
  - rewrite decide_False by (intros [? _]; congruence). reflexivity.
Qed.

(** The bucket loop increments the bucket with the first bound above the
    latency, and the last bucket when the scan finds none. *)
Lemma bins_loop_first_bound (L : Z) (n : nat) :
  forall (i : nat) (b : list Z),
    (i + n = NBINS - 1)%nat ->
    (forall j : nat, (j < i)%nat -> 32 * 2 ^ Z.of_nat j <= L) ->
    exists k : nat,
      bins_loop L i n b = incr_at k b /\
      (((k <= 10)%nat /\ L < 32 * 2 ^ Z.of_nat k /\
        forall j : nat, (j < k)%nat -> 32 * 2 ^ Z.of_nat j <= L)
       \/ (k = 11%nat /\
           forall j : nat, (j <= 10)%nat -> 32 * 2 ^ Z.of_nat j <= L)).
Proof.
  unfold NBINS. induction n as [|n IH]; intros i b Hin Hlow; simpl.
  - exists 11%nat. split; [reflexivity|]. right. split; [reflexivity|].
    intros j Hj. apply Hlow. lia.
  - rewrite shiftl_one. unfold BIN0.
    destruct (Z.ltb_spec L (32 * 2 ^ Z.of_nat i)) as [Hlt|Hge].
    + exists i. split; [reflexivity|]. left. repeat split; [lia|lia|exact Hlow].
    + apply IH; [lia|]. intros j Hj.
      destruct (decide (j = i)) as [->|Hne]; [exact Hge | apply Hlow; lia].
Qed.

(** C7: every recorded latency [L] increments exactly one histogram
    bucket, the one with the smallest index [i] in 0..10 such that
    [L < 32 * 2^i] (microseconds), or bucket 11 when there is none; 31
    goes to bucket 0, 32 to bucket 1, 32767 to bucket 10 and 32768 to
    bucket 11. *)
Theorem update_statistics_bucket (L : Z) (st : state) :
  length (bins st) = NBINS ->
  (exists b : nat,
     (forall j : nat,
        bins (update_statistics L st) !!! j =
        if decide (j = b) then wrap_size (bins st !!! j + 1)
        else bins st !!! j) /\
     (((b <= 10)%nat /\ L < 32 * 2 ^ Z.of_nat b /\
       forall i : nat, (i < b)%nat -> 32 * 2 ^ Z.of_nat i <= L)
      \/ (b = 11%nat /\
          forall i : nat, (i <= 10)%nat -> 32 * 2 ^ Z.of_nat i <= L))) /\
  bins (update_statistics 31 st) = incr_at 0 (bins st) /\
  bins (update_statistics 32 st) = incr_at 1 (bins st) /\
  bins (update_statistics 32767 st) = incr_at 10 (bins st) /\
  bins (update_statistics 32768 st) = incr_at 11 (bins st).
Proof.
  intros Hlen. split.
  - destruct (bins_loop_first_bound L (NBINS - 1) 0 (bins st)) as (k & Hk & Hc).
    { unfold NBINS. lia. }
    { intros j Hj. lia. }
    exists k. split; [|exact Hc].
    intros j.
    rewrite bins_update_statistics, Hk. apply lookup_incr_at. rewrite Hlen. unfold NBINS.
    destruct Hc as [(? & _)|(-> & _)]; lia.
  - rewrite !bins_update_statistics. repeat split.
Qed.

(** On the initial state a latency of 100 us goes to bucket 2. *)
Lemma update_statistics_bucket_witness :
  exists b : nat,
    (forall j : nat,
       bins (update_statistics 100 init) !!! j =
       if decide (j = b) then wrap_size (bins init !!! j + 1)
       else bins init !!! j) /\
    b = 2%nat.
Proof.
  destruct (proj1 (update_statistics_bucket 100 init eq_refl)) as (b & Hb & Hc).
  exists b. split; [exact Hb|].
  destruct Hc as [(Hle & Hlt & Hmin)|(-> & Hall)].
  - destruct (decide (b = 2%nat)) as [->|Hne]; [reflexivity|exfalso].
    destruct (decide (b < 2)%nat) as [Hsm|Hbig].
    + assert (b = 0 \/ b = 1)%nat as [-> | ->] by lia; simpl in Hlt; lia.
    + specialize (Hmin 2%nat ltac:(lia)). simpl in Hmin. lia.
  - exfalso. specialize (Hall 2%nat ltac:(lia)). simpl in Hall. lia.
Defined.

(** ** The error-queue reader *)

Lemma errqueue_store_timestamp tl serr st :
  errqueue (store_timestamp tl serr st) = errqueue st.
Proof.
  unfold store_timestamp.
  case_conditions; reflexivity.
Qed.

Lemma errqueue_recv_timestamp st :
  errqueue (recv_timestamp st) = tail (errqueue st).
Proof.
  unfold recv_timestamp. destruct (errqueue st) as [|m q] eqn:Hq; simpl.
  - rewrite Hq. reflexivity.
  - destruct (scan_cmsgs m None None) as [[tl|] [serr|]];
      rewrite ?errqueue_store_timestamp; reflexivity.
Qed.

Lemma errqueue_iter_recv (n : nat) (st : state) :
  errqueue (Nat.iter n recv_timestamp st) = drop n (errqueue st).
Proof.
  induction n as [|n IH]; simpl.
  - rewrite drop_0. reflexivity.
  - rewrite errqueue_recv_timestamp, IH.
    generalize (errqueue st) as q. clear.
    induction n as [|n IH]; intros [|m q]; simpl; auto.
Qed.

(** C3, as the code has it: a call of the collector performs one
    non-blocking read.  On an empty queue nothing changes; otherwise
    exactly the head message is taken and the others stay queued.  The
    queue is empty only after as many calls as it held messages. *)
Theorem recv_timestamp_reads_one (st : state) :
  errqueue (recv_timestamp st) = tail (errqueue st) /\
  match errqueue st with
  | [] => recv_timestamp st = st
  | _ :: q => length (errqueue (recv_timestamp st)) = length q
  end /\
  errqueue (Nat.iter (length (errqueue st)) recv_timestamp st) = [].
Proof.
  split; [apply errqueue_recv_timestamp|]. split.
  - destruct (errqueue st) as [|m q] eqn:Hq.
    + unfold recv_timestamp. rewrite Hq. reflexivity.
    + rewrite errqueue_recv_timestamp, Hq. reflexivity.
  - rewrite errqueue_iter_recv. apply drop_all.
Qed.

(** C3, as stated, fails: with two messages queued, one is still there
    after a call. *)
Lemma recv_timestamp_leaves_messages :
  ~ drains_queue
      (queued [tstamp_msg SCM_TSTAMP_SCHED (Timespec 1 0) ts_zero;
               tstamp_msg SCM_TSTAMP_SND (Timespec 1 50000) ts_zero]).
Proof. unfold drains_queue. vm_compute. discriminate. Qed.

(** X15: the scan finds a timestamp triple exactly when the message
    has a timestamping control message, and an extended error exactly
    when it has an IP error control message. *)
Lemma scan_cmsgs_found (cs : list cmsghdr) :
  forall a b,
    (is_Some (scan_cmsgs cs a b).1 <->
     is_Some a \/ Exists (fun c => is_timestamping c = true) cs) /\
    (is_Some (scan_cmsgs cs a b).2 <->
     is_Some b \/ Exists (fun c => is_recverr c = true) cs).
Proof.
  assert (Hsome : forall (A : Type) (x : A), is_Some (Some x)) by eauto.
  induction cs as [|c cs IH]; intros a b; cbn [scan_cmsgs].
  - rewrite !Exists_nil. cbn. tauto.
  - rewrite !Exists_cons.
    destruct (is_timestamping c) eqn:Hts.
    + assert (Hre : is_recverr c = false).
      { unfold is_timestamping, is_recverr, SOL_SOCKET, SOL_IP in *.
        destruct (Z.eqb_spec (cmsg_level c) 1) as [->|]; [reflexivity|].
        discriminate Hts. }
      rewrite Hre. destruct (IH (Some (data_tstamps c)) b) as [-> ->].
      split; split; intros; auto; intuition discriminate.
    + destruct (is_recverr c) eqn:Hre.
      * destruct (IH a (Some (data_serr c))) as [-> ->].
        split; split; intros; auto; intuition discriminate.
      * destruct (IH a b) as [-> ->].
        split; split; intros; auto; intuition discriminate.
Qed.

(** C5, as the code has it: for a message carrying both a timestamp
    triple and an extended error, the rules are tried in order and the
    first that applies decides.  "Entered scheduler" stores triple[0] as
    the scheduled stage; "handed to driver" with triple[0] stamped stores
    it as driverHandoff; "handed to driver" with triple[0] unstamped and
    triple[2] stamped stores triple[2] as wireDeparture; anything else,
    and a message lacking either piece, leaves the record as it was.
    Stamped means a non-zero seconds field. *)
Theorem recv_timestamp_disambiguation (m : msghdr) (q : list msghdr)
    (st : state) :
  length (tstamps st) = 3%nat ->
  errqueue st = m :: q ->
  let old := tstamps st in
  let new := tstamps (recv_timestamp st) in
  match scan_cmsgs m None None with
  | (Some tl, Some serr) =>
      let t0 := ts tl !!! 0%nat in
      let t2 := ts tl !!! 2%nat in
      (ee_info serr = SCM_TSTAMP_SCHED ->
       new = [t0; old !!! 1%nat; old !!! 2%nat]) /\
      (ee_info serr = SCM_TSTAMP_SND -> tv_sec t0 <> 0 ->
       new = [old !!! 0%nat; t0; old !!! 2%nat]) /\
      (ee_info serr = SCM_TSTAMP_SND -> tv_sec t0 = 0 -> tv_sec t2 <> 0 ->
       new = [old !!! 0%nat; old !!! 1%nat; t2]) /\
      (ee_info serr = SCM_TSTAMP_SND -> tv_sec t0 = 0 -> tv_sec t2 = 0 ->
       new = old) /\
      (ee_info serr <> SCM_TSTAMP_SCHED -> ee_info serr <> SCM_TSTAMP_SND ->
       new = old)
  | _ => new = old
  end.
Proof.
  intros Hlen Hq old new. subst old new.
  unfold recv_timestamp. rewrite Hq. simpl.
  destruct (scan_cmsgs m None None) as [[tl|] [serr|]]; try reflexivity.
  unfold store_timestamp, SCM_TSTAMP_SCHED, SCM_TSTAMP_SND.
  destruct (tstamps st) as [|a [|b [|c [|d l]]]] eqn:Ht; try discriminate Hlen.
  destruct (Z.eqb_spec (ee_info serr) 1) as [H1|H1];
    destruct (Z.eqb_spec (ee_info serr) 0) as [H0|H0];
    destruct (Z.eqb_spec (tv_sec (ts tl !!! 0%nat)) 0) as [Ha|Ha];
    destruct (Z.eqb_spec (tv_sec (ts tl !!! 2%nat)) 0) as [Hb|Hb];
    simpl; rewrite ?Ht; repeat split; intros; try reflexivity; congruence.
Qed.

(** A hardware notification on an empty record fills the wire stage. *)
Lemma recv_timestamp_disambiguation_witness :
  tstamps (recv_timestamp
             (queued [tstamp_msg SCM_TSTAMP_SND ts_zero (Timespec 1 120000)]))
  = [ts_zero; ts_zero; Timespec 1 120000].
Proof.
  pose proof (recv_timestamp_disambiguation
                (tstamp_msg SCM_TSTAMP_SND ts_zero (Timespec 1 120000)) []
                (queued [tstamp_msg SCM_TSTAMP_SND ts_zero (Timespec 1 120000)])
                eq_refl eq_refl) as H.
  simpl in H. destruct H as (_ & _ & H & _).
  apply H; [reflexivity | reflexivity | discriminate].
Defined.

(** C5, as stated, fails: a "handed to driver" message with both
    triple[0] and triple[2] stamped sets driverHandoff only, and
    wireDeparture keeps its old value. *)
Lemma recv_timestamp_both_slots_first_wins :
  ~ rules_independent both_slots (SockExtendedErr SCM_TSTAMP_SND)
      (tstamps (recv_timestamp
                  (queued [[Cmsg SOL_SOCKET SCM_TIMESTAMPING both_slots
                                 (SockExtendedErr 0);
                            Cmsg SOL_IP IP_RECVERR (ScmTimestamping [])
                                 (SockExtendedErr SCM_TSTAMP_SND)]]))).
Proof.
  intros (_ & _ & H).
  assert (Hne : tv_sec (ts both_slots !!! 2%nat) <> 0)
    by (vm_compute; discriminate).
  specialize (H eq_refl Hne). vm_compute in H. discriminate H.
Qed.

(** ** The cycle clock *)

(** On a time with non-negative nanoseconds the loop of [normalize]
    carries the whole seconds over. *)
Lemma normalize_carry (t : timespec) :
  0 <= tv_nsec t ->
  in_long (tv_sec t) ->
  tv_sec t + tv_nsec t / BILLION <= LONG_MAX ->
  normalize t =
  Timespec (tv_sec t + tv_nsec t / BILLION) (tv_nsec t mod BILLION).
Proof.
  funelim (normalize t); intros Hns Hsec Hmax.
  - clear Heq. simpl in *.
    assert (Hq : (tv_nsec t - BILLION) / BILLION = tv_nsec t / BILLION - 1).
    { replace (tv_nsec t - BILLION) with (tv_nsec t + (-1) * BILLION) by lia.
      rewrite Z.div_add by (unfold BILLION; lia). lia. }
    assert (Hm : (tv_nsec t - BILLION) mod BILLION = tv_nsec t mod BILLION).
    { replace (tv_nsec t - BILLION) with (tv_nsec t + (-1) * BILLION) by lia.
      apply Z.mod_add. unfold BILLION. lia. }
    assert (1 <= tv_nsec t / BILLION).
    { apply Z.div_le_lower_bound; unfold BILLION in *; lia. }
    assert (Hw : wrap_long (tv_sec t + 1) = tv_sec t + 1).
    { apply wrap_long_id. in_range. }
    rewrite H; simpl; rewrite ?Hw, ?Hq, ?Hm.
    + f_equal. lia.
    + lia.
    + in_range.
    + lia.
  - clear Heq. destruct t as [s n]. simpl in *.
    rewrite Z.div_small, Z.mod_small by lia. f_equal. lia.
Qed.

(** C4, as the code has it: [synchronize] takes the seconds of [now]
    as they are and moves the nanoseconds field to the first multiple of
    the period strictly above it, then adds the offset; the carry into
    the seconds leaves the nanoseconds of the target below 10^9. *)
Theorem synchronize_next_boundary (now : timespec) (P A : Z) :
  0 < P -> 0 <= A ->
  0 <= tv_nsec now < BILLION ->
  0 <= tv_sec now <= 2 ^ 62 ->
  P + A <= 2 ^ 62 ->
  let next := synchronize_next now P A in
  let boundary := (tv_nsec now / P + 1) * P in
  tv_nsec now < boundary <= tv_nsec now + P /\
  boundary mod P = 0 /\
  total_ns next = tv_sec now * BILLION + boundary + A /\
  0 <= tv_nsec next < BILLION.
Proof.
  intros HP HA Hns Hsec Hsum next boundary.
  assert (Hb : tv_nsec now < boundary <= tv_nsec now + P).
  { subst boundary.
    pose proof (Z.div_mod (tv_nsec now) P ltac:(lia)).
    pose proof (Z.mod_pos_bound (tv_nsec now) P HP). nia. }
  assert (Hq : 0 <= tv_nsec now / P <= tv_nsec now).
  { split; [apply Z.div_pos; lia|].
    apply Z.div_le_upper_bound; [lia|]. nia. }
  split; [exact Hb|]. split; [apply Z.mod_mul; lia|].
  subst next. unfold synchronize_next.
  rewrite Z.quot_div_nonneg by lia.
  fold boundary in Hb |- *. unfold BILLION in *.
  rewrite (wrap_long_id (tv_nsec now / P + 1))
    by in_range.
  fold boundary.
  rewrite (wrap_long_id boundary) by in_range.
  rewrite (wrap_long_id (boundary + A))
    by in_range.
  assert (Hd : 0 <= (boundary + A) / 1000000000 <= 2 ^ 61).
  { split; [apply Z.div_pos; lia|].
    apply Z.div_le_upper_bound; lia. }
  rewrite normalize_carry; simpl; unfold BILLION, in_long, LONG_MIN, LONG_MAX;
    try lia.
  unfold total_ns, BILLION. simpl.
  pose proof (Z.div_mod (boundary + A) 1000000000 ltac:(lia)).
  pose proof (Z.mod_pos_bound (boundary + A) 1000000000 ltac:(lia)).
  split; lia.
Qed.

(** One nanosecond before a second boundary, period 1 ms, offset 150 us. *)
Lemma synchronize_next_boundary_witness :
  total_ns (synchronize_next (Timespec 5 999999999) 1000000 150000)
  = 5 * BILLION + (999999999 / 1000000 + 1) * 1000000 + 150000.
Proof.
  apply (synchronize_next_boundary (Timespec 5 999999999) 1000000 150000);
    simpl; unfold BILLION; lia.
Defined.

(** C4, as stated, fails: when [now] is exactly on a period boundary the
    code waits for the following boundary, not for [now] itself; and with
    a period that does not divide one second the boundaries are counted
    from the start of the current second, not from the clock's origin. *)
Lemma synchronize_next_not_ceiling :
  total_ns (synchronize_next (Timespec 5 0) 1000000 0)
    <> ceiling_target (Timespec 5 0) 1000000 0 /\
  total_ns (synchronize_next (Timespec 1 100) 300000000 0)
    <> ceiling_target (Timespec 1 100) 300000000 0.
Proof. split; vm_compute; discriminate. Qed.

(** ** Evaluation of a cycle *)

Lemma emitted_app (st st' : state) (l : list output) :
  out st' = out st ++ l -> emitted st st' = l.
Proof. intros H. unfold emitted. rewrite H. apply drop_app_length. Qed.

Lemma out_emit_if b o st : out (emit_if b o st) = out st ++ when b o.
Proof. destruct b; simpl; [reflexivity | rewrite app_nil_r; reflexivity]. Qed.

Lemma out_update_statistics L st : out (update_statistics L st) = out st.
Proof.
  unfold update_statistics.
  destruct (L <? min_lat st); destruct (_ <? L); reflexivity.
Qed.

Lemma stamped_emit_if i b o st : stamped i (emit_if b o st) = stamped i st.
Proof. destruct b; reflexivity. Qed.

(** The lines one evaluation writes. *)
Lemma out_evaluate (cfg : config) (st : state) :
  out (evaluate cfg st).1 = out st ++
  if all_stamped st then
    let L := latency_of st in
    let s := snapshot cfg && negb (threshold cfg =? 0) && (threshold cfg <? L) in
    when (trace_marker cfg) (Trace_latency L) ++ when s Snapshot_write
    ++ [Err_seq (seqid st) (tstamps st !!! 0%nat) (tstamps st !!! 1%nat)
                (tstamps st !!! 2%nat) L s]
  else
    when (negb (stamped 0 st)) (Err_missing 0)
    ++ when (negb (stamped 1 st)) (Err_missing 1)
    ++ when (negb (stamped 2 st)) (Err_missing 2)
    ++ (if snapshot cfg then [Snapshot_write; Err_snapshot_taken] else []).
Proof.
  unfold evaluate. destruct (all_stamped st); cbn [negb fst]; cbv zeta.
  - set (L := latency_of st).
    set (s := snapshot cfg && negb (threshold cfg =? 0) && (threshold cfg <? L)).
    destruct (trace_marker cfg), s, (1 <? num_packets _);
      rewrite ?out_update_statistics; cbn; rewrite <- ?app_assoc; reflexivity.
  - rewrite !stamped_emit_if.
    destruct (stamped 0 st), (stamped 1 st), (stamped 2 st), (snapshot cfg);
      cbn; rewrite <- ?app_assoc, ?app_nil_r; reflexivity.
Qed.

Lemma continued_evaluate (cfg : config) (st : state) :
  (evaluate cfg st).2 = negb (all_stamped st).
Proof. unfold evaluate. destruct (all_stamped st); reflexivity. Qed.

Lemma all_stamped_false (st : state) :
  all_stamped st = false <->
  tv_sec (tstamps st !!! 0%nat) = 0 \/ tv_sec (tstamps st !!! 1%nat) = 0
  \/ tv_sec (tstamps st !!! 2%nat) = 0.
Proof.
  unfold all_stamped, stamped.
  destruct (Z.eqb_spec (tv_sec (tstamps st !!! 0%nat)) 0);
    destruct (Z.eqb_spec (tv_sec (tstamps st !!! 1%nat)) 0);
    destruct (Z.eqb_spec (tv_sec (tstamps st !!! 2%nat)) 0);
    simpl; intuition congruence.
Qed.

(** C6: with a snapshot sink, evaluating a cycle requests a snapshot
    exactly when a stage stamp is absent, or the threshold is positive
    and the latency exceeds it; with threshold 0 and all stamps present
    none is requested, whatever the latency. *)
Theorem evaluate_snapshot_iff (cfg : config) (st : state) :
  snapshot cfg = true ->
  0 <= threshold cfg ->
  (Snapshot_write ∈ emitted st (evaluate cfg st).1 <->
   (stamped 0 st = false \/ stamped 1 st = false \/ stamped 2 st = false)
   \/ (0 < threshold cfg /\ threshold cfg < latency_of st)) /\
  (threshold cfg = 0 -> all_stamped st = true ->
   Snapshot_write ∉ emitted st (evaluate cfg st).1).
Proof.
  intros Hsnap Hthr.
  rewrite (emitted_app _ _ _ (out_evaluate cfg st)), Hsnap. split.
  - unfold all_stamped.
    destruct (stamped 0 st), (stamped 1 st), (stamped 2 st),
      (trace_marker cfg), (Z.eqb_spec (threshold cfg) 0) as [Hz|Hz],
      (Z.ltb_spec (threshold cfg) (latency_of st)) as [Hl|Hl];
      cbn; rewrite ?elem_of_cons, ?elem_of_nil;
      intuition (try discriminate; try lia).
  - intros Hz Hall. rewrite Hall, Hz. cbn.
    destruct (trace_marker cfg); cbn; rewrite ?elem_of_cons, ?elem_of_nil;
      intuition discriminate.
Qed.

(** Threshold 0 and a complete record: no snapshot. *)
Lemma evaluate_snapshot_iff_witness :
  Snapshot_write ∉
    emitted (set_tstamps shifted_example init)
      (evaluate (Config 1000000 0 0 true true)
                (set_tstamps shifted_example init)).1.
Proof.
  apply (evaluate_snapshot_iff (Config 1000000 0 0 true true)
           (set_tstamps shifted_example init));
    [reflexivity | simpl; lia | reflexivity | reflexivity].
Defined.

Lemma quot_1000_in_long (x : Z) : in_long x -> in_long (Z.quot x 1000).
Proof.
  unfold in_long, LONG_MIN, LONG_MAX. intros Hx.
  pose proof (Z.quot_rem' x 1000) as Hqr.
  pose proof (Z.rem_bound_abs x 1000 ltac:(lia)) as Hr.
  lia.
Qed.

(** Within the range of real kernel stamps no intermediate result of the
    latency expression leaves its type. *)
Lemma latency_of_exact (st : state) :
  let t0 := tstamps st !!! 0%nat in
  let t2 := tstamps st !!! 2%nat in
  Z.abs (tv_sec t0) <= 2 ^ 32 -> Z.abs (tv_sec t2) <= 2 ^ 32 ->
  0 <= tv_nsec t0 < BILLION -> 0 <= tv_nsec t2 < BILLION ->
  latency_of st = Z.quot (total_ns t2 - total_ns t0) 1000.
Proof.
  intros t0 t2 Hs0 Hs2 Hn0 Hn2. unfold latency_of, total_ns, BILLION in *.
  fold t0 t2.
  rewrite (wrap_long_id (tv_sec t2 - tv_sec t0))
    by in_range.
  rewrite (wrap_long_id (tv_nsec t2 - tv_nsec t0))
    by in_range.
  rewrite (wrap_long_id ((tv_sec t2 - tv_sec t0) * 1000000000))
    by in_range.
  assert (Hsum : in_long ((tv_sec t2 - tv_sec t0) * 1000000000
                          + (tv_nsec t2 - tv_nsec t0)))
    by in_range.
  rewrite (wrap_long_id _ Hsum).
  rewrite wrap_long_id by (apply quot_1000_in_long; exact Hsum).
  f_equal. lia.
Qed.

(** C8, as the code has it: for a cycle with all three stamps present
    (seconds fields non-zero) the reported latency is the nanosecond
    difference wireDeparture - scheduled divided by 1000, truncated
    toward zero, whatever driverHandoff is; stamps of 1 s + 0 ns,
    1 s + 50000 ns and 1 s + 120000 ns give 120 microseconds. *)
Theorem latency_truncated_microseconds (cfg : config) (st : state) :
  all_stamped st = true ->
  let t0 := tstamps st !!! 0%nat in
  let t2 := tstamps st !!! 2%nat in
  Z.abs (tv_sec t0) <= 2 ^ 32 -> Z.abs (tv_sec t2) <= 2 ^ 32 ->
  0 <= tv_nsec t0 < BILLION -> 0 <= tv_nsec t2 < BILLION ->
  let L := Z.quot (total_ns t2 - total_ns t0) 1000 in
  latency_of st = L /\
  reports_latency cfg st L /\
  (forall L', reports_latency cfg st L' -> L' = L) /\
  (forall d : timespec,
     latency_of (set_tstamps (<[1%nat := d]> (tstamps st)) st) = L) /\
  latency_of (set_tstamps shifted_example st) = 120.
Proof.
  intros Hall t0 t2 Hs0 Hs2 Hn0 Hn2 L.
  assert (HL : latency_of st = L) by (apply latency_of_exact; assumption).
  assert (Hout := emitted_app _ _ _ (out_evaluate cfg st)).
  rewrite Hall in Hout. cbv zeta in Hout. rewrite HL in Hout.
  split; [exact HL|]. split; [|split; [|split]].
  - unfold reports_latency. rewrite Hout.
    eexists _, _, _, _, _. rewrite !elem_of_app, list_elem_of_singleton.
    right. right. reflexivity.
  - intros L' (seq & a & b & c & s & Hin). rewrite Hout in Hin.
    destruct (trace_marker cfg), (snapshot cfg && _ && _) in Hin; cbn in Hin;
      rewrite ?elem_of_cons, ?elem_of_nil in Hin;
      intuition (try discriminate; congruence).
  - intros d. rewrite <- HL. unfold latency_of. cbn [tstamps set_tstamps].
    rewrite !list_lookup_total_insert_ne by discriminate. reflexivity.
  - reflexivity.
Qed.

(** The shifted example is reported with 120 us. *)
Lemma latency_truncated_microseconds_witness :
  reports_latency example_cfg (set_tstamps shifted_example init)
    (Z.quot (total_ns (Timespec 1 120000) - total_ns (Timespec 1 0)) 1000).
Proof.
  apply (latency_truncated_microseconds example_cfg
           (set_tstamps shifted_example init));
    [reflexivity | | | | ]; simpl; unfold BILLION; lia.
Defined.

(** C8, as stated, fails on its example: stamps of 0 ns, 50000 ns and
    120000 ns have zero seconds fields, so the cycle is evaluated as one
    with three missing stamps and no latency is reported. *)
Lemma literal_example_reports_no_latency :
  ~ reports_latency example_cfg literal_example 120.
Proof.
  intros (seq & a & b & c & s & Hin).
  rewrite (emitted_app _ _ _ (out_evaluate example_cfg literal_example)) in Hin.
  match type of Hin with _ ∈ ?l => remember l as lines eqn:El end.
  vm_compute in El. subst lines.
  rewrite ?elem_of_cons, ?elem_of_nil in Hin.
  intuition discriminate.
Qed.

(** ** What each step leaves alone *)

Lemma untouched_refl st : untouched st st.
Proof. repeat split. Qed.

Lemma untouched_trans st1 st2 st3 :
  untouched st1 st2 -> untouched st2 st3 -> untouched st1 st3.
Proof. unfold untouched. intros (?&?&?) (?&?&?). repeat split; congruence. Qed.

Lemma untouched_emit_if b o st : untouched st (emit_if b o st).
Proof. destruct b; repeat split. Qed.

Lemma untouched_store_timestamp tl serr st :
  untouched st (store_timestamp tl serr st).
Proof.
  unfold store_timestamp.
  case_conditions; repeat split.
Qed.

Lemma untouched_recv_timestamp st : untouched st (recv_timestamp st).
Proof.
  unfold recv_timestamp. destruct (recvmsg (errqueue st)) as [[m q]|].
  - destruct (scan_cmsgs m None None) as [[tl|] [serr|]];
      try (repeat split; fail).
    eapply untouched_trans; [|apply untouched_store_timestamp]. repeat split.
  - apply untouched_refl.
Qed.

Lemma untouched_synchronize events :
  forall st, untouched st (synchronize events st).
Proof.
  induction events as [|[m|] events IH]; intros st; simpl.
  - apply untouched_refl.
  - eapply untouched_trans; [|apply IH]. repeat split.
  - eapply untouched_trans; [apply untouched_recv_timestamp | apply IH].
Qed.

Lemma untouched_transmit cfg inp st : untouched st (transmit cfg inp st).
Proof.
  unfold transmit.
  eapply untouched_trans; [apply (untouched_emit_if (trace_marker cfg) Trace_slack)|].
  eapply untouched_trans; [apply untouched_synchronize|].
  eapply untouched_trans;
    [apply (untouched_emit_if (trace_marker cfg) Trace_cycle)|].
  destruct (written inp <? 0); [repeat split|].
  destruct (negb (written inp =? 44)); repeat split.
Qed.

Lemma statistics_update_statistics L st :
  statistics (update_statistics L st) =
  (if L <? min_lat st then L else min_lat st,
   if max_lat st <? L then L else max_lat st,
   <[Z.to_nat (Z.land (num_packets st) (NSAMPLES - 1)) := L]> (samples st),
   bins_loop L 0 (NBINS - 1) (bins st)).
Proof.
  unfold statistics.
  rewrite bins_update_statistics, samples_update_statistics.
  unfold update_statistics.
  destruct (L <? min_lat st); cbn [max_lat set_min_lat];
    destruct (max_lat st <? L); reflexivity.
Qed.

Lemma evaluate_measured cfg st :
  all_stamped st = true ->
  exists st', untouched st st' /\ tstamps st' = tstamps st /\
    (evaluate cfg st).1 =
    if 1 <? num_packets st then update_statistics (latency_of st) st' else st'.
Proof.
  intros Hall. unfold evaluate. rewrite Hall. cbn [negb fst]. cbv zeta.
  set (L := latency_of st).
  set (s := snapshot cfg && negb (threshold cfg =? 0) && (threshold cfg <? L)).
  exists (emit (Err_seq (seqid st) (tstamps st !!! 0%nat) (tstamps st !!! 1%nat)
                        (tstamps st !!! 2%nat) L s)
               (emit_if s Snapshot_write
                  (emit_if (trace_marker cfg) (Trace_latency L) st))).
  destruct (trace_marker cfg), s; repeat split.
Qed.

Lemma evaluate_anomalous cfg st :
  all_stamped st = false ->
  untouched st (evaluate cfg st).1 /\ tstamps (evaluate cfg st).1 = tstamps st.
Proof.
  intros Hall. unfold evaluate. rewrite Hall. cbn [negb fst]. cbv zeta.
  rewrite !stamped_emit_if.
  destruct (stamped 0 st), (stamped 1 st), (stamped 2 st), (snapshot cfg);
    repeat split.
Qed.

Lemma statistics_evaluate cfg st :
  statistics (evaluate cfg st).1 =
  if all_stamped st && (1 <? num_packets st)
  then statistics (update_statistics (latency_of st) st)
  else statistics st.
Proof.
  destruct (all_stamped st) eqn:Hall; cbn [andb].
  - destruct (evaluate_measured cfg st Hall) as (st' & (Hn & _ & Hs) & _ & ->).
    destruct (1 <? num_packets st); [|exact Hs].
    rewrite !statistics_update_statistics.
    unfold statistics in Hs. injection Hs as -> -> -> ->. rewrite Hn.
    reflexivity.
  - apply (evaluate_anomalous cfg st Hall).
Qed.

Lemma counters_evaluate cfg st :
  num_packets (evaluate cfg st).1 = num_packets st /\
  seqid (evaluate cfg st).1 = seqid st /\
  tstamps (evaluate cfg st).1 = tstamps st.
Proof.
  destruct (all_stamped st) eqn:Hall.
  - destruct (evaluate_measured cfg st Hall) as (st' & (Hn & Hq & _) & Ht & ->).
    destruct (1 <? num_packets st); [|auto].
    rewrite tstamps_update_statistics. unfold update_statistics.
    destruct (_ <? min_lat st'); cbn [max_lat set_min_lat];
      destruct (max_lat st' <? _); auto.
  - destruct (evaluate_anomalous cfg st Hall) as ((? & ? & _) & ?). auto.
Qed.

(** The three ways through one iteration. *)
Lemma cycle_cases (cfg : config) (inp : cycle_input) (st : state) :
  let st1 := transmit cfg inp st in
  cycle cfg inp st =
  if num_packets st1 =? 0 then next_cycle st1
  else if all_stamped st1 then next_cycle (evaluate cfg st1).1
  else (evaluate cfg st1).1.
Proof.
  intros st1. unfold cycle. fold st1.
  destruct (num_packets st1 =? 0); cbn [negb]; [reflexivity|].
  pose proof (continued_evaluate cfg st1) as Hc.
  destruct (evaluate cfg st1) as [st2 c]. simpl in *. subst c.
  destruct (all_stamped st1); reflexivity.
Qed.

(** C10: a stage stamp counts as present exactly when the seconds field
    of its timespec is non-zero.  The controller's check reads only the
    seconds fields, so a record holding a stamp with zero seconds and
    any nanoseconds is anomalous: the iteration is cut short, the stage
    is reported missing and the statistics are not fed.  The collector's
    two tests on "handed to driver" messages read only the seconds too: a
    triple entry with zero seconds is not stored, whatever its
    nanoseconds. *)
Theorem stamp_present_iff_seconds (cfg : config) (st : state)
    (tl : scm_timestamping) (i : nat) (n : Z) :
  length (tstamps st) = 3%nat ->
  (i < 3)%nat ->
  (forall j : nat, stamped j st = true <-> tv_sec (tstamps st !!! j) <> 0) /\
  ((evaluate cfg st).2 = true <->
   tv_sec (tstamps st !!! 0%nat) = 0 \/ tv_sec (tstamps st !!! 1%nat) = 0
   \/ tv_sec (tstamps st !!! 2%nat) = 0) /\
  (let st0 := set_tstamps (<[i := Timespec 0 n]> (tstamps st)) st in
   (evaluate cfg st0).2 = true /\
   statistics (evaluate cfg st0).1 = statistics st0 /\
   Err_missing i ∈ emitted st0 (evaluate cfg st0).1) /\
  (let st' := store_timestamp tl (SockExtendedErr SCM_TSTAMP_SND) st in
   (tv_sec (ts tl !!! 0%nat) = 0 ->
    tstamps st' !!! 1%nat = tstamps st !!! 1%nat) /\
   (tv_sec (ts tl !!! 2%nat) = 0 ->
    tstamps st' !!! 2%nat = tstamps st !!! 2%nat)).
Proof.
  intros Hlen Hi. split; [|split; [|split]].
  - intros j. unfold stamped.
    destruct (Z.eqb_spec (tv_sec (tstamps st !!! j)) 0); simpl;
      intuition congruence.
  - rewrite continued_evaluate, <- all_stamped_false.
    destruct (all_stamped st); simpl; intuition congruence.
  - intros st0.
    assert (Hz : stamped i st0 = false).
    { unfold stamped, st0. cbn [tstamps set_tstamps].
      rewrite list_lookup_total_insert_eq by lia. reflexivity. }
    assert (Hall : all_stamped st0 = false).
    { unfold all_stamped.
      assert (i = 0 \/ i = 1 \/ i = 2)%nat as [-> | [-> | ->]] by lia;
        rewrite Hz; rewrite ?andb_false_r; reflexivity. }
    split; [rewrite continued_evaluate, Hall; reflexivity|].
    split; [rewrite statistics_evaluate, Hall; reflexivity|].
    rewrite (emitted_app _ _ _ (out_evaluate cfg st0)), Hall.
    assert (i = 0 \/ i = 1 \/ i = 2)%nat as [-> | [-> | ->]] by lia;
      rewrite Hz; cbn [negb when]; rewrite !elem_of_app, ?elem_of_cons; auto.
  - unfold store_timestamp, SCM_TSTAMP_SND, SCM_TSTAMP_SCHED. cbn [ee_info].
    cbn [Z.eqb andb]. split; intros Hz.
    + rewrite Hz. cbn [Z.eqb negb].
      destruct (negb (tv_sec (ts tl !!! 2%nat) =? 0)); [|reflexivity].
      cbn [tstamps set_tstamps].
      rewrite list_lookup_total_insert_ne by discriminate. reflexivity.
    + rewrite Hz. cbn [Z.eqb negb].
      destruct (negb (tv_sec (ts tl !!! 0%nat) =? 0)); [|reflexivity].
      cbn [tstamps set_tstamps].
      rewrite list_lookup_total_insert_ne by discriminate. reflexivity.
Qed.

(** A wire stamp of 0 s + 120000 ns makes the cycle anomalous. *)
Lemma stamp_present_iff_seconds_witness :
  (evaluate example_cfg
     (set_tstamps (<[2%nat := Timespec 0 120000]> shifted_example)
        (set_tstamps shifted_example init))).2 = true.
Proof.
  apply (stamp_present_iff_seconds example_cfg
           (set_tstamps shifted_example init) both_slots 2 120000);
    [reflexivity | lia].
Defined.

(** ** The loop *)

(** A first iteration followed by one in which only the scheduler
    notification arrived, and the same run with a complete second
    cycle. *)
Example missing_stamp_run :
  let st := main_loop example_cfg [first_cycle; sched_only] init in
  let st' := main_loop example_cfg [first_cycle; complete 120] init in
  (seqid st = 1 /\ num_packets st = 1 /\
   tstamps st = [Timespec 1 0; ts_zero; ts_zero]) /\
  (seqid st' = 2 /\ num_packets st' = 2 /\
   tstamps st' = [ts_zero; ts_zero; ts_zero]).
Proof. vm_compute. repeat split. Qed.


Lemma next_cycle_counters st :
  num_packets (next_cycle st) = wrap_size (num_packets st + 1) /\
  seqid (next_cycle st) = wrap_u16 (seqid st + 1) /\
  tstamps (next_cycle st) = replicate 3 ts_zero /\
  statistics (next_cycle st) = statistics st.
Proof. repeat split. Qed.

(** An iteration that measures nothing leaves the statistics alone. *)
Lemma cycle_without_latency cfg inp st :
  negb (num_packets (transmit cfg inp st) =? 0)
  && all_stamped (transmit cfg inp st) = false ->
  statistics (cycle cfg inp st) = statistics st /\
  num_packets (cycle cfg inp st) =
  if num_packets st =? 0 then wrap_size (num_packets st + 1)
  else num_packets st.
Proof.
  intros Hc. rewrite cycle_cases. cbv zeta.
  destruct (untouched_transmit cfg inp st) as (Hn & _ & Hs).
  rewrite Hn in *.
  destruct (num_packets st =? 0); cbn [negb andb] in Hc.
  - destruct (next_cycle_counters (transmit cfg inp st)) as (-> & _ & _ & ->).
    rewrite Hn. auto.
  - rewrite Hc.
    destruct (evaluate_anomalous cfg _ Hc) as ((-> & _ & ->) & _). auto.
Qed.

(** An iteration that measures a latency feeds it when the cycle count
    is above 1, and advances the count. *)
Lemma cycle_with_latency cfg inp st :
  negb (num_packets (transmit cfg inp st) =? 0)
  && all_stamped (transmit cfg inp st) = true ->
  let L := latency_of (transmit cfg inp st) in
  num_packets (cycle cfg inp st) = wrap_size (num_packets st + 1) /\
  statistics (cycle cfg inp st) =
  if 1 <? num_packets st
  then statistics (update_statistics L (transmit cfg inp st))
  else statistics st.
Proof.
  intros Hc L. rewrite cycle_cases. cbv zeta.
  destruct (untouched_transmit cfg inp st) as (Hn & _ & Hs).
  apply andb_true_iff in Hc as [Hnz Hall]. apply negb_true_iff in Hnz.
  rewrite Hnz, Hall.
  destruct (next_cycle_counters (evaluate cfg (transmit cfg inp st)).1)
    as (-> & _ & _ & ->).
  destruct (counters_evaluate cfg (transmit cfg inp st)) as (-> & _ & _).
  rewrite statistics_evaluate, Hall, Hn. cbn [andb]. fold L.
  destruct (1 <? num_packets st); auto.
Qed.


(** The statistics after an update depend on the state only through the
    cycle count and the statistics before it. *)
Lemma statistics_update_congruence L st st' :
  num_packets st' = num_packets st ->
  statistics st' = statistics st ->
  statistics (update_statistics L st') = statistics (update_statistics L st).
Proof.
  intros Hn Hs. rewrite !statistics_update_statistics.
  unfold statistics in Hs. injection Hs as -> -> -> ->. rewrite Hn.
  reflexivity.
Qed.

Lemma statistics_set_num_packets v st :
  statistics (set_num_packets v st) = statistics st.
Proof. reflexivity. Qed.

(** Once the count is above 1 every measured latency is fed. *)
Lemma main_loop_feed cfg inputs :
  forall st st',
    2 <= num_packets st ->
    num_packets st + Z.of_nat (length inputs) < 2 ^ 64 ->
    num_packets st' = num_packets st ->
    statistics st' = statistics st ->
    statistics (main_loop cfg inputs st)
    = statistics (feed (run_latencies cfg inputs st) st').
Proof.
  induction inputs as [|inp inputs IH]; intros st st' Hge Hlt Hn Hs.
  - simpl. congruence.
  - cbn [main_loop run_latencies length] in *.
    destruct (negb (num_packets (transmit cfg inp st) =? 0)
              && all_stamped (transmit cfg inp st)) eqn:Hc.
    + destruct (cycle_with_latency cfg inp st Hc) as (Hn' & Hs').
      cbv zeta in Hs'. cbn [app feed].
      assert (Hw : wrap_size (num_packets st + 1) = num_packets st + 1)
        by (apply wrap_size_id; in_range).
      apply IH.
      * rewrite Hn', Hw. lia.
      * rewrite Hn', Hw. lia.
      * cbn [num_packets set_num_packets]. congruence.
      * rewrite Hs'. destruct (Z.ltb_spec 1 (num_packets st)) as [_|?]; [|lia].
        rewrite statistics_set_num_packets.
        apply statistics_update_congruence.
        -- destruct (untouched_transmit cfg inp st) as (-> & _). exact Hn.
        -- destruct (untouched_transmit cfg inp st) as (_ & _ & ->). exact Hs.
    + destruct (cycle_without_latency cfg inp st Hc) as (Hs' & Hn').
      rewrite (proj2 (Z.eqb_neq (num_packets st) 0)) in Hn' by lia.
      cbn [app]. apply IH; try lia; congruence.
Qed.

(** Until the first cycle completes nothing is fed, and the latency of
    that cycle is passed over. *)
Lemma main_loop_warm_up cfg inputs :
  forall st st',
    0 <= num_packets st <= 1 ->
    Z.of_nat (length inputs) < 2 ^ 64 - 2 ->
    num_packets st' = 2 ->
    statistics st' = statistics st ->
    statistics (main_loop cfg inputs st)
    = statistics (feed (tail (run_latencies cfg inputs st)) st').
Proof.
  induction inputs as [|inp inputs IH]; intros st st' Hnp Hlen Hn Hs.
  - simpl. congruence.
  - cbn [main_loop run_latencies length] in *.
    destruct (negb (num_packets (transmit cfg inp st) =? 0)
              && all_stamped (transmit cfg inp st)) eqn:Hc.
    + destruct (cycle_with_latency cfg inp st Hc) as (Hn' & Hs').
      cbv zeta in Hs'. cbn [app tail].
      assert (Hone : num_packets st = 1).
      { destruct (untouched_transmit cfg inp st) as (Hq & _).
        apply andb_true_iff in Hc as [Hnz _]. rewrite Hq in Hnz.
        destruct (Z.eqb_spec (num_packets st) 0); [discriminate|lia]. }
      rewrite Hone in Hn', Hs'.
      change (1 <? 1) with false in Hs'.
      change (wrap_size (1 + 1)) with 2 in Hn'.
      apply main_loop_feed; [lia | lia | congruence | congruence].
    + destruct (cycle_without_latency cfg inp st Hc) as (Hs' & Hn').
      cbn [app]. apply IH; try lia; try congruence.
      rewrite Hn'. destruct (Z.eqb_spec (num_packets st) 0) as [Hz|?];
        [rewrite Hz; change (wrap_size (0 + 1)) with 1; lia | lia].
Qed.

(** C9: the latency of the first completed cycle is never fed to the
    statistics engine.  Over any run the extrema, the sample window and
    the histogram are those obtained by feeding the latencies of the
    completed cycles after the first one; so while at most one cycle has
    completed they are as at program start, whatever that cycle's stamps
    and latency, and whatever the threshold. *)
Theorem first_cycle_excluded (cfg : config) (inputs : list cycle_input) :
  Z.of_nat (length inputs) < 2 ^ 64 - 2 ->
  statistics (main_loop cfg inputs init)
  = statistics (feed (counted_samples cfg inputs) (set_num_packets 2 init)) /\
  ((length (run_latencies cfg inputs init) <= 1)%nat ->
   statistics (main_loop cfg inputs init) = statistics init).
Proof.
  intros Hlen.
  assert (Hfeed : statistics (main_loop cfg inputs init)
                  = statistics (feed (counted_samples cfg inputs)
                                     (set_num_packets 2 init))).
  { apply main_loop_warm_up; [cbn; lia | exact Hlen | reflexivity | reflexivity]. }
  split; [exact Hfeed|].
  intros Hone. rewrite Hfeed. unfold counted_samples.
  destruct (run_latencies cfg inputs init) as [|L [|L' rest]];
    [reflexivity | reflexivity | simpl in Hone; lia].
Qed.

(** A run whose only completed cycle took 120 us, below the threshold of
    1000 us: the statistics are untouched. *)
Lemma first_cycle_excluded_witness :
  run_latencies example_cfg [first_cycle; complete 120] init = [120] /\
  statistics (main_loop example_cfg [first_cycle; complete 120] init)
  = statistics init.
Proof.
  split; [reflexivity|].
  apply (first_cycle_excluded example_cfg [first_cycle; complete 120]);
    [simpl; lia | simpl; lia].
Defined.

(** ** Reachable states *)

Lemma wf_frame st st' :
  statistics st' = statistics st ->
  length (tstamps st') = length (tstamps st) ->
  wf_state st -> wf_state st'.
Proof.
  unfold statistics, wf_state. intros Hs Ht (? & ? & ?).
  injection Hs as _ _ -> ->. rewrite Ht. auto.
Qed.

Lemma length_tstamps_store_timestamp tl serr st :
  length (tstamps (store_timestamp tl serr st)) = length (tstamps st).
Proof.
  unfold store_timestamp.
  case_conditions; cbn [tstamps set_tstamps]; rewrite ?length_insert;
    reflexivity.
Qed.

Lemma length_tstamps_recv_timestamp st :
  length (tstamps (recv_timestamp st)) = length (tstamps st).
Proof.
  unfold recv_timestamp. destruct (recvmsg (errqueue st)) as [[m q]|];
    [|reflexivity].
  destruct (scan_cmsgs m None None) as [[tl|] [serr|]]; try reflexivity.
  rewrite length_tstamps_store_timestamp. reflexivity.
Qed.

Lemma length_tstamps_synchronize events :
  forall st, length (tstamps (synchronize events st)) = length (tstamps st).
Proof.
  induction events as [|[m|] events IH]; intros st; simpl;
    rewrite ?IH, ?length_tstamps_recv_timestamp; reflexivity.
Qed.

Lemma length_tstamps_transmit cfg inp st :
  length (tstamps (transmit cfg inp st)) = length (tstamps st).
Proof.
  unfold transmit.
  assert (He : forall b o s, tstamps (emit_if b o s) = tstamps s)
    by (intros [] ? ?; reflexivity).
  destruct (written inp <? 0); [|destruct (negb (written inp =? 44))];
    cbn [tstamps emit]; rewrite He, length_tstamps_synchronize, He;
    reflexivity.
Qed.

Lemma wf_cycle cfg inp st : wf_state st -> wf_state (cycle cfg inp st).
Proof.
  intros Hwf.
  assert (Hwf1 : wf_state (transmit cfg inp st)).
  { apply (wf_frame st); [apply untouched_transmit | | exact Hwf].
    apply length_tstamps_transmit. }
  assert (Hnext : forall s, wf_state s -> wf_state (next_cycle s)).
  { intros s (? & ? & ?). repeat split; assumption. }
  assert (Heval : wf_state (evaluate cfg (transmit cfg inp st)).1).
  { destruct (all_stamped (transmit cfg inp st)) eqn:Hall.
    - destruct (evaluate_measured cfg _ Hall) as (st' & (_ & _ & Hs) & Ht & ->).
      assert (wf_state st') by (apply (wf_frame _ _ Hs); congruence).
      destruct (1 <? _); [apply wf_update_statistics|]; assumption.
    - destruct (evaluate_anomalous cfg _ Hall) as ((_ & _ & Hs) & Ht).
      apply (wf_frame _ _ Hs); congruence. }
  rewrite cycle_cases. cbv zeta.
  destruct (num_packets _ =? 0); [auto|].
  destruct (all_stamped _); auto.
Qed.

Lemma in_size_cycle cfg inp st :
  in_size (num_packets st) -> in_size (num_packets (cycle cfg inp st)).
Proof.
  intros Hn.
  assert (Hw : forall z, in_size (wrap_size z)).
  { intros z. unfold in_size, wrap_size. apply Z.mod_pos_bound. lia. }
  destruct (negb (num_packets (transmit cfg inp st) =? 0)
            && all_stamped (transmit cfg inp st)) eqn:Hc.
  - destruct (cycle_with_latency cfg inp st Hc) as (-> & _). apply Hw.
  - destruct (cycle_without_latency cfg inp st Hc) as (_ & ->).
    destruct (num_packets st =? 0); [apply Hw | exact Hn].
Qed.

(** Every state the loop reaches has arrays of the declared sizes and a
    cycle count within [size_t]. *)
Lemma reachable_main_loop cfg inputs :
  forall st,
    wf_state st -> in_size (num_packets st) ->
    wf_state (main_loop cfg inputs st) /\
    in_size (num_packets (main_loop cfg inputs st)).
Proof.
  induction inputs as [|inp inputs IH]; intros st Hwf Hn; simpl.
  - auto.
  - apply IH; [apply wf_cycle | apply in_size_cycle]; assumption.
Qed.

(** ** The report *)

Lemma print_bins_frame (b : list Z) (n : nat) :
  forall (i : nat) (low high : Z) (st : state),
    exists rows,
      out (print_bins b i n low high st) = out st ++ rows /\
      samples (print_bins b i n low high st) = samples st.
Proof.
  induction n as [|n IH]; intros i low high st; cbn [print_bins].
  - eexists. split; reflexivity.
  - destruct (IH (S i) (wrap_long (high + 1)) (wrap_long (Z.shiftl high 1))
                 (emit (Out_bin low high (b !!! i)) st)) as (rows & Ho & Hs).
    exists (Out_bin low high (b !!! i) :: rows). rewrite Ho, Hs.
    cbn [out emit samples]. split; [|reflexivity].
    rewrite <- List.app_assoc. reflexivity.
Qed.

Lemma compar_le_iff (p q : Z) : compar_le p q <-> p <= q.
Proof.
  unfold compar_le, compar.
  destruct (Z.ltb_spec p q); [lia|]. destruct (Z.ltb_spec q p); lia.
Qed.

Lemma compar_le_total : Total compar_le.
Proof. intros p q. rewrite !compar_le_iff. lia. Qed.

Lemma length_qsort (l : list Z) : length (qsort l) = length l.
Proof. unfold qsort. apply Permutation_length, merge_sort_Permutation. Qed.

Lemma qsort_ascending (l : list Z) : Sorted Z.le (qsort l).
Proof.
  unfold qsort.
  induction (@Sorted_merge_sort _ compar_le _ compar_le_total l)
    as [|x xs _ IH Hhd];
    constructor; [exact IH|].
  destruct Hhd as [|y ys Hxy]; constructor. apply compar_le_iff, Hxy.
Qed.

(** What the report does with the window: with c = num_packets - 1
    non-zero and n = min(c, 1024), it sorts the first n entries ascending
    in place, leaves the entries from n on where they are, and prints the
    entry at index n/2 of the sorted prefix. *)
Theorem print_statistics_median (st : state) :
  length (samples st) = Z.to_nat NSAMPLES ->
  1 < num_packets st < 2 ^ 64 ->
  let n := Z.min (num_packets st - 1) NSAMPLES in
  let prefix := take (Z.to_nat n) (samples st) in
  samples (print_statistics st)
  = qsort prefix ++ drop (Z.to_nat n) (samples st) /\
  Sorted Z.le (qsort prefix) /\
  qsort prefix ≡ₚ prefix /\
  reported_median (emitted st (print_statistics st))
  = Some (qsort prefix !!! Z.to_nat (n / 2)).
Proof.
  intros Hlen Hnp n prefix.
  assert (Hsorted : Sorted Z.le (qsort prefix)) by apply qsort_ascending.
  assert (Hperm : qsort prefix ≡ₚ prefix).
  { unfold qsort. apply merge_sort_Permutation. }
  unfold print_statistics.
  destruct (Z.eqb_spec (num_packets st) 0) as [?|_]; [lia|].
  cbn [num_packets set_num_packets emit].
  rewrite (wrap_size_id (num_packets st - 1)) by (unfold in_size; lia).
  destruct (Z.eqb_spec (num_packets st - 1) 0) as [?|_]; [lia|].
  cbv zeta. cbn [samples set_samples emit min_lat max_lat bins].
  assert (Hn : (if NSAMPLES <? num_packets st - 1 then NSAMPLES
                else num_packets st - 1) = n).
  { unfold n. destruct (Z.ltb_spec NSAMPLES (num_packets st - 1)); lia. }
  rewrite Hn. fold prefix.
  match goal with
  | |- context [print_bins ?b ?i ?k ?lo ?hi ?s] =>
      destruct (print_bins_frame b k i lo hi s) as (rows & Hout & Hsam)
  end.
  rewrite Hsam. cbn [samples].
  split; [reflexivity|]. split; [exact Hsorted|]. split; [exact Hperm|].
  erewrite emitted_app
    by (rewrite Hout; cbn [out emit set_samples set_num_packets];
        rewrite <- !app_assoc; reflexivity).
  cbn [app reported_median]. f_equal.
  apply lookup_total_app_l.
  rewrite length_qsort. unfold prefix. rewrite length_take, Hlen.
  unfold n, NSAMPLES in *.
  assert (0 <= Z.min (num_packets st - 1) 1024 / 2
          < Z.min (num_packets st - 1) 1024).
  { split; [apply Z.div_pos; lia | apply Z.div_lt_upper_bound; lia]. }
  lia.
Qed.

(** The report after the sample run sorts the first four entries. *)
Lemma print_statistics_median_witness :
  let st := main_loop example_cfg sample_run init in
  samples (print_statistics st)
  = qsort (take 4 (samples st)) ++ drop 4 (samples st).
Proof.
  apply (print_statistics_median (main_loop example_cfg sample_run init));
    [reflexivity | vm_compute; split; reflexivity].
Defined.

(** The report of the sample run: the three counted samples sit at
    indices 2 to 4 of the window; the report sorts indices 0 to 3 and
    prints 200, where the median of the counted samples is 250. *)
Example sample_run_report :
  let st := main_loop example_cfg sample_run init in
  counted_samples example_cfg sample_run = [300; 200; 250] /\
  take 5 (samples st) = [0; 0; 300; 200; 250] /\
  take 5 (samples (print_statistics st)) = [0; 0; 200; 300; 250] /\
  reported_median (emitted st (print_statistics st)) = Some 200 /\
  qsort [300; 200; 250] !!! 1%nat = 250.
Proof. vm_compute. repeat split. Qed.

(** The report of the sample run is not the one the specification
    describes: the printed median is not that of the three counted
    samples, and the window is rearranged. *)
Lemma sample_run_median_differs :
  ~ median_of_counted_copy example_cfg sample_run.
Proof.
  unfold median_of_counted_copy. intros H.
  destruct sample_run_report as (Hc & _ & _ & Hm & Hq).
  cbv zeta in H. rewrite Hc, Hm in H. cbn [length] in H.
  destruct H as [H _]; [lia|].
  change (3 / 2)%nat with 1%nat in H. rewrite Hq in H. discriminate H.
Qed.

(** C2, on the code: the report does not take the median of the counted
    samples.  The first counted sample is stored at index 2 of the window
    (the cycle count is already 2 when it is recorded), while the report
    sorts the entries from index 0 and takes one entry more than there
    are counted samples.  After the short run, whose only counted sample
    is 900 us, the window is 0, 0, 900; the report counts 2, sorts the
    two zero entries in place and prints min/median/max = 900/0/900,
    where the median of the counted samples is 900.  After the sample
    run, with counted samples 300, 200 and 250 us, it prints the median
    200, where the median of the counted samples is 250. *)
Theorem report_median_misses_counted_samples :
  let st := main_loop example_cfg short_run init in
  let st' := main_loop example_cfg sample_run init in
  (counted_samples example_cfg short_run = [900] /\
   num_packets st = 3 /\
   take 3 (samples st) = [0; 0; 900] /\
   take 2 (emitted st (print_statistics st))
   = [Out_transmitted 2; Out_latency 900 0 900] /\
   qsort [900] !!! (1 / 2)%nat = 900) /\
  (counted_samples example_cfg sample_run = [300; 200; 250] /\
   num_packets st' = 5 /\
   take 5 (samples st') = [0; 0; 300; 200; 250] /\
   take 2 (emitted st' (print_statistics st'))
   = [Out_transmitted 4; Out_latency 200 200 300] /\
   take 5 (samples (print_statistics st')) = [0; 0; 200; 300; 250] /\
   qsort [300; 200; 250] !!! (3 / 2)%nat = 250).
Proof. vm_compute. repeat split. Qed.

(** * Further properties *)

(** ** The statistics engine *)

(** X1: [compar] is a three-way comparison of the two [long] keys: it
    returns -1, 0 or 1 exactly when the first is below, equal to or above
    the second, and exchanging the arguments negates the result. *)
Theorem compar_three_way (p q : Z) :
  (compar p q = -1 <-> p < q) /\
  (compar p q = 0 <-> p = q) /\
  (compar p q = 1 <-> q < p) /\
  compar q p = - compar p q.
Proof.
  unfold compar.
  destruct (Z.ltb_spec p q), (Z.ltb_spec q p); repeat split; intros; lia.
Qed.

Lemma extrema_update_statistics L st :
  min_lat (update_statistics L st) = Z.min L (min_lat st) /\
  max_lat (update_statistics L st) = Z.max L (max_lat st).
Proof.
  unfold update_statistics.
  destruct (Z.ltb_spec L (min_lat st)); cbn [max_lat set_min_lat];
    destruct (Z.ltb_spec (max_lat st) L);
    cbn [min_lat max_lat set_min_lat set_max_lat set_samples set_bins];
    split; lia.
Qed.

Lemma statistics_feed_congruence ls :
  forall st st',
    num_packets st' = num_packets st ->
    statistics st' = statistics st ->
    statistics (feed ls st') = statistics (feed ls st).
Proof.
  induction ls as [|L ls IH]; intros st st' Hn Hs; cbn [feed]; [exact Hs|].
  apply IH.
  - cbn [num_packets set_num_packets]. congruence.
  - rewrite !statistics_set_num_packets.
    apply statistics_update_congruence; assumption.
Qed.

Lemma extrema_feed ls :
  forall st,
    min_lat (feed ls st) = foldr Z.min (min_lat st) (reverse ls) /\
    max_lat (feed ls st) = foldr Z.max (max_lat st) (reverse ls).
Proof.
  induction ls as [|L ls IH]; intros st; cbn [feed].
  - split; reflexivity.
  - destruct (IH (set_num_packets (wrap_size (num_packets st + 1))
                                  (update_statistics L st))) as (-> & ->).
    cbn [min_lat max_lat set_num_packets].
    destruct (extrema_update_statistics L st) as (-> & ->).
    rewrite reverse_cons, !foldr_app. split; reflexivity.
Qed.

Lemma foldr_min_bounds (l : list Z) (a : Z) :
  foldr Z.min a l <= a /\
  Forall (fun x => foldr Z.min a l <= x) l /\
  (foldr Z.min a l = a \/ foldr Z.min a l ∈ l).
Proof.
  induction l as [|x l (IHa & IHl & IHm)]; cbn [foldr].
  - repeat split; [lia | constructor | left; reflexivity].
  - split; [lia|]. split.
    + constructor; [lia|]. eapply Forall_impl; [exact IHl|].
      intros y Hy. simpl in Hy. lia.
    + destruct (Z.min_spec x (foldr Z.min a l)) as [(_ & ->)|(_ & ->)].
      * right. left.
      * destruct IHm as [->|Hin]; [left; reflexivity | right; right; exact Hin].
Qed.

Lemma foldr_max_bounds (l : list Z) (a : Z) :
  a <= foldr Z.max a l /\
  Forall (fun x => x <= foldr Z.max a l) l /\
  (foldr Z.max a l = a \/ foldr Z.max a l ∈ l).
Proof.
  induction l as [|x l (IHa & IHl & IHm)]; cbn [foldr].
  - repeat split; [lia | constructor | left; reflexivity].
  - split; [lia|]. split.
    + constructor; [lia|]. eapply Forall_impl; [exact IHl|].
      intros y Hy. simpl in Hy. lia.
    + destruct (Z.max_spec x (foldr Z.max a l)) as [(_ & ->)|(_ & ->)].
      * destruct IHm as [->|Hin]; [left; reflexivity | right; right; exact Hin].
      * right. left.
Qed.

Lemma in_long_latency_of st : in_long (latency_of st).
Proof.
  unfold latency_of, in_long, LONG_MIN, LONG_MAX, wrap_long.
  match goal with
  | |- _ <= (?x + _) mod _ - _ <= _ =>
      pose proof (Z.mod_pos_bound (x + 2 ^ 63) (2 ^ 64) ltac:(lia))
  end.
  lia.
Qed.

Lemma in_long_run_latencies cfg inputs :
  forall st, Forall in_long (run_latencies cfg inputs st).
Proof.
  induction inputs as [|inp inputs IH]; intros st; cbn [run_latencies].
  - constructor.
  - apply Forall_app. split; [|apply IH].
    destruct (_ && _); [|constructor].
    constructor; [apply in_long_latency_of | constructor].
Qed.

Lemma statistics_main_loop cfg inputs :
  Z.of_nat (length inputs) < 2 ^ 64 - 2 ->
  statistics (main_loop cfg inputs init)
  = statistics (feed (counted_samples cfg inputs) (set_num_packets 2 init)).
Proof.
  intros Hlen.
  apply main_loop_warm_up; [cbn; lia | exact Hlen | reflexivity | reflexivity].
Qed.

Lemma in_long_counted_samples cfg inputs :
  Forall in_long (counted_samples cfg inputs).
Proof.
  unfold counted_samples.
  pose proof (in_long_run_latencies cfg inputs init) as H.
  destruct (run_latencies cfg inputs init); [constructor|].
  apply Forall_cons in H as [_ H]. exact H.
Qed.

(** X2: over any run the printed extrema are those of the counted
    samples: with no counted sample they still hold the start values
    [LONG_MAX] and [LONG_MIN]; otherwise the minimum and the maximum are
    counted samples and every counted sample lies between them. *)
Theorem run_extrema (cfg : config) (inputs : list cycle_input) :
  Z.of_nat (length inputs) < 2 ^ 64 - 2 ->
  let c := counted_samples cfg inputs in
  let st := main_loop cfg inputs init in
  match c with
  | [] => min_lat st = LONG_MAX /\ max_lat st = LONG_MIN
  | _ :: _ =>
      min_lat st ∈ c /\ max_lat st ∈ c /\
      Forall (fun L => min_lat st <= L <= max_lat st) c
  end.
Proof.
  intros Hlen c st.
  pose proof (statistics_main_loop cfg inputs Hlen) as Hs.
  fold c st in Hs. unfold statistics in Hs. injection Hs as Hmin Hmax _ _.
  destruct (extrema_feed c (set_num_packets 2 init)) as (Emin & Emax).
  rewrite Emin in Hmin. rewrite Emax in Hmax.
  cbn [min_lat max_lat set_num_packets init] in Hmin, Hmax.
  pose proof (in_long_counted_samples cfg inputs) as Hin. fold c in Hin.
  destruct (foldr_min_bounds (reverse c) LONG_MAX) as (_ & Hlo & Hmem).
  destruct (foldr_max_bounds (reverse c) LONG_MIN) as (_ & Hhi & Hmem').
  rewrite <- Hmin in Hlo, Hmem. rewrite <- Hmax in Hhi, Hmem'.
  apply (proj1 (Forall_reverse _ _)) in Hlo.
  apply (proj1 (Forall_reverse _ _)) in Hhi.
  destruct c as [|x c']; [cbn in Hmin, Hmax; auto|].
  assert (Hx : in_long x) by (apply Forall_cons in Hin as [? _]; assumption).
  assert (Hlx : min_lat st <= x) by (apply Forall_cons in Hlo as [? _]; assumption).
  assert (Hxh : x <= max_lat st) by (apply Forall_cons in Hhi as [? _]; assumption).
  split; [|split].
  - destruct Hmem as [Heq|Hm]; [|apply elem_of_reverse; exact Hm].
    assert (min_lat st = x) as -> by (unfold in_long in Hx; lia). left.
  - destruct Hmem' as [Heq|Hm]; [|apply elem_of_reverse; exact Hm].
    assert (max_lat st = x) as -> by (unfold in_long in Hx; lia). left.
  - apply Forall_forall. intros L HL.
    rewrite Forall_forall in Hlo, Hhi.
    split; [apply Hlo | apply Hhi]; exact HL.
Qed.

(** The sample run: minimum 200, maximum 300. *)
Lemma run_extrema_witness :
  min_lat (main_loop example_cfg sample_run init) ∈ [300; 200; 250].
Proof.
  pose proof (run_extrema example_cfg sample_run ltac:(simpl; lia)) as H.
  cbv zeta in H. destruct sample_run_report as (Hc & _).
  rewrite Hc in H. apply H.
Defined.

Lemma bins_total_insert (b : list Z) :
  forall (i : nat) (v : Z),
    (i < length b)%nat ->
    bins_total (<[i := v]> b) = bins_total b - b !!! i + v.
Proof.
  unfold bins_total.
  induction b as [|x b IH]; intros i v Hi; [simpl in Hi; lia|].
  destruct i as [|i]; [cbn; lia|].
  change (<[S i := v]> (x :: b)) with (x :: <[i := v]> b).
  change ((x :: b) !!! S i) with (b !!! i). cbn [foldr].
  rewrite IH by (simpl in Hi; lia). lia.
Qed.

Lemma bins_total_bounds (b : list Z) (i : nat) :
  Forall (fun x => 0 <= x) b ->
  (i < length b)%nat ->
  0 <= b !!! i <= bins_total b.
Proof.
  unfold bins_total. intros Hb. revert i.
  induction Hb as [|x b Hx Hb IH]; intros i Hi; [simpl in Hi; lia|].
  assert (0 <= foldr Z.add 0 b).
  { clear -Hb. induction Hb; cbn; lia. }
  destruct i as [|i]; [cbn; lia|].
  change ((x :: b) !!! S i) with (b !!! i). cbn [foldr].
  simpl in Hi. specialize (IH i ltac:(lia)). lia.
Qed.

(** One update adds one to the sum of the counters, as long as the sum
    stays within [size_t]. *)
Lemma bins_total_update_statistics L st :
  length (bins st) = NBINS ->
  Forall (fun x => 0 <= x) (bins st) ->
  bins_total (bins st) + 1 < 2 ^ 64 ->
  bins_total (bins (update_statistics L st)) = bins_total (bins st) + 1 /\
  Forall (fun x => 0 <= x) (bins (update_statistics L st)).
Proof.
  intros Hlen Hpos Hmax. rewrite bins_update_statistics.
  destruct (bins_loop_first_bound L (NBINS - 1) 0 (bins st)) as (k & -> & Hk).
  { unfold NBINS. lia. }
  { intros j Hj. lia. }
  assert (Hkl : (k < length (bins st))%nat).
  { rewrite Hlen. unfold NBINS. destruct Hk as [(? & _)|(-> & _)]; lia. }
  pose proof (bins_total_bounds _ k Hpos Hkl) as Hb.
  unfold incr_at.
  rewrite (wrap_size_id (bins st !!! k + 1)) by (unfold in_size; lia).
  split.
  - rewrite bins_total_insert by exact Hkl. lia.
  - apply Forall_insert; [exact Hpos | lia].
Qed.

Lemma bins_total_feed ls :
  forall st,
    length (bins st) = NBINS ->
    Forall (fun x => 0 <= x) (bins st) ->
    bins_total (bins st) + Z.of_nat (length ls) < 2 ^ 64 ->
    bins_total (bins (feed ls st))
    = bins_total (bins st) + Z.of_nat (length ls).
Proof.
  induction ls as [|L ls IH]; intros st Hlen Hpos Hmax; cbn [feed length] in *.
  - lia.
  - destruct (bins_total_update_statistics L st Hlen Hpos ltac:(lia))
      as (Htot & Hpos').
    rewrite IH; cbn [bins set_num_packets].
    + rewrite Htot. lia.
    + rewrite bins_update_statistics, length_bins_loop. exact Hlen.
    + exact Hpos'.
    + rewrite Htot. lia.
Qed.

Lemma length_run_latencies cfg inputs :
  forall st, (length (run_latencies cfg inputs st) <= length inputs)%nat.
Proof.
  induction inputs as [|inp inputs IH]; intros st; cbn [run_latencies length].
  - lia.
  - rewrite length_app. specialize (IH (cycle cfg inp st)).
    destruct (_ && _); cbn [length]; lia.
Qed.

(** X3: over any run the counters of the histogram add up to the
    number of counted samples: every counted sample is in exactly one
    bucket and nothing else is. *)
Theorem histogram_total (cfg : config) (inputs : list cycle_input) :
  Z.of_nat (length inputs) < 2 ^ 64 - 2 ->
  bins_total (bins (main_loop cfg inputs init))
  = Z.of_nat (length (counted_samples cfg inputs)).
Proof.
  intros Hlen.
  pose proof (statistics_main_loop cfg inputs Hlen) as Hs.
  unfold statistics in Hs. injection Hs as _ _ _ ->.
  assert (Hc : (length (counted_samples cfg inputs) <= length inputs)%nat).
  { unfold counted_samples.
    pose proof (length_run_latencies cfg inputs init).
    destruct (run_latencies cfg inputs init); cbn [tail length] in *; lia. }
  rewrite bins_total_feed; cbn [bins set_num_packets init].
  - change (bins_total (replicate NBINS 0)) with 0. lia.
  - apply length_replicate.
  - apply Forall_replicate. lia.
  - change (bins_total (replicate NBINS 0)) with 0. lia.
Qed.

(** The sample run has three counted samples. *)
Lemma histogram_total_witness :
  bins_total (bins (main_loop example_cfg sample_run init)) = 3.
Proof.
  apply (histogram_total example_cfg sample_run). simpl. lia.
Defined.

(** X4: the sample window is written at the cycle count modulo 1024:
    the index is always inside the array, the entry written reads back
    and every other entry is as before. *)
Theorem update_statistics_window (L : Z) (st : state) :
  0 <= num_packets st ->
  length (samples st) = Z.to_nat NSAMPLES ->
  let i := Z.to_nat (num_packets st mod 1024) in
  (i < 1024)%nat /\
  length (samples (update_statistics L st)) = Z.to_nat NSAMPLES /\
  samples (update_statistics L st) !!! i = L /\
  forall j : nat,
    j <> i -> samples (update_statistics L st) !!! j = samples st !!! j.
Proof.
  intros Hn Hlen i.
  assert (Hland : Z.land (num_packets st) (NSAMPLES - 1)
                  = num_packets st mod 1024).
  { change (NSAMPLES - 1) with (Z.ones 10). rewrite Z.land_ones by lia.
    reflexivity. }
  pose proof (Z.mod_pos_bound (num_packets st) 1024 ltac:(lia)) as Hm.
  assert (Hi : (i < 1024)%nat) by (unfold i; lia).
  rewrite samples_update_statistics, Hland. fold i.
  split; [exact Hi|]. split; [rewrite length_insert; exact Hlen|]. split.
  - apply list_lookup_total_insert_eq. rewrite Hlen. unfold NSAMPLES. lia.
  - intros j Hj. apply list_lookup_total_insert_ne. congruence.
Qed.

(** The 1025th write lands on entry 1. *)
Lemma update_statistics_window_witness :
  samples (update_statistics 77 (set_num_packets 1025 init)) !!! 1%nat = 77.
Proof.
  apply (update_statistics_window 77 (set_num_packets 1025 init));
    [simpl; lia | reflexivity].
Defined.

(** While the cycle count stays below the window size the fed samples
    fill consecutive entries, starting at the count. *)
Lemma samples_feed ls :
  forall (st : state) (c : nat),
    num_packets st = Z.of_nat c ->
    (c + length ls <= 1024)%nat ->
    length (samples st) = Z.to_nat NSAMPLES ->
    samples (feed ls st)
    = take c (samples st) ++ ls ++ drop (c + length ls) (samples st).
Proof.
  induction ls as [|L ls IH]; intros st c Hn Hc Hlen; cbn [feed length] in *.
  - rewrite Nat.add_0_r. cbn [app]. symmetry. apply take_drop.
  - assert (Hw : wrap_size (num_packets st + 1) = Z.of_nat (S c)).
    { rewrite Hn, wrap_size_id by (unfold in_size; lia). lia. }
    assert (Hidx : Z.to_nat (Z.land (num_packets st) (NSAMPLES - 1)) = c).
    { change (NSAMPLES - 1) with (Z.ones 10). rewrite Z.land_ones by lia.
      rewrite Hn, Z.mod_small by lia. lia. }
    assert (Hs : samples (update_statistics L st)
                 = take c (samples st) ++ L :: drop (S c) (samples st)).
    { rewrite samples_update_statistics, Hidx. apply insert_take_drop.
      rewrite Hlen. unfold NSAMPLES. lia. }
    assert (Htk : length (take c (samples st)) = c).
    { apply length_take_le. rewrite Hlen. unfold NSAMPLES. lia. }
    rewrite (IH _ (S c)); cbn [num_packets samples set_num_packets].
    + rewrite Hs.
      replace (S c) with (c + 1)%nat at 1 by lia.
      rewrite take_app_add' by (symmetry; exact Htk).
      replace (S c + length ls)%nat with (c + (1 + length ls))%nat by lia.
      rewrite drop_app_add' by (symmetry; exact Htk).
      cbn [take drop Nat.add]. rewrite take_0, drop_drop, <- app_assoc.
      cbn [app].
      replace (c + S (length ls))%nat with (S c + length ls)%nat by lia.
      reflexivity.
    + exact Hw.
    + lia.
    + rewrite Hs, length_app, Htk. cbn [length]. rewrite length_drop, Hlen.
      unfold NSAMPLES. lia.
Qed.

(** X5: over any run with at most 1022 counted samples the sample
    window holds two zero entries, then the counted samples in the order
    they were measured, then zeros: the first counted sample sits at
    index 2. *)
Theorem window_layout (cfg : config) (inputs : list cycle_input) :
  Z.of_nat (length inputs) < 2 ^ 64 - 2 ->
  let c := counted_samples cfg inputs in
  (length c <= 1022)%nat ->
  samples (main_loop cfg inputs init)
  = [0; 0] ++ c ++ replicate (1022 - length c) 0.
Proof.
  intros Hlen c Hc.
  pose proof (statistics_main_loop cfg inputs Hlen) as Hs.
  unfold statistics in Hs. injection Hs as _ _ -> _. fold c.
  rewrite (samples_feed c (set_num_packets 2 init) 2);
    [| reflexivity | lia | reflexivity].
  cbn [samples set_num_packets init].
  change (Z.to_nat NSAMPLES) with 1024%nat.
  rewrite take_replicate, drop_replicate.
  replace (1024 - (2 + length c))%nat with (1022 - length c)%nat by lia.
  reflexivity.
Qed.

(** The sample run: 300, 200 and 250 at indices 2 to 4. *)
Lemma window_layout_witness :
  take 5 (samples (main_loop example_cfg sample_run init))
  = [0; 0; 300; 200; 250].
Proof.
  pose proof (window_layout example_cfg sample_run ltac:(simpl; lia)) as H.
  cbv zeta in H. destruct sample_run_report as (Hc & _).
  rewrite Hc in H. rewrite H by (simpl; lia). reflexivity.
Defined.

(** ** The counters of the loop *)

(** From a non-zero cycle count on, the count grows by one for every
    measured latency and by nothing else. *)
Lemma num_packets_main_loop cfg inputs :
  forall st,
    1 <= num_packets st ->
    num_packets st + Z.of_nat (length inputs) < 2 ^ 64 ->
    num_packets (main_loop cfg inputs st)
    = num_packets st + Z.of_nat (length (run_latencies cfg inputs st)).
Proof.
  induction inputs as [|inp inputs IH]; intros st Hge Hlt;
    cbn [main_loop run_latencies length] in *; [lia|].
  destruct (negb (num_packets (transmit cfg inp st) =? 0)
            && all_stamped (transmit cfg inp st)) eqn:Hc.
  - destruct (cycle_with_latency cfg inp st Hc) as (Hn & _).
    rewrite wrap_size_id in Hn by in_range.
    rewrite IH by lia. rewrite Hn. cbn [app length]. lia.
  - destruct (cycle_without_latency cfg inp st Hc) as (_ & Hn).
    rewrite (proj2 (Z.eqb_neq (num_packets st) 0)) in Hn by lia.
    rewrite IH by lia. rewrite Hn. cbn [app]. lia.
Qed.

Lemma num_packets_run cfg inputs :
  inputs <> [] ->
  Z.of_nat (length inputs) < 2 ^ 64 - 2 ->
  num_packets (main_loop cfg inputs init)
  = 1 + Z.of_nat (length (run_latencies cfg inputs init)).
Proof.
  intros Hne Hlen. destruct inputs as [|inp inputs]; [congruence|].
  cbn [main_loop run_latencies length] in *.
  assert (Hc : negb (num_packets (transmit cfg inp init) =? 0)
               && all_stamped (transmit cfg inp init) = false).
  { destruct (untouched_transmit cfg inp init) as (-> & _). reflexivity. }
  destruct (cycle_without_latency cfg inp init Hc) as (_ & Hn).
  change (num_packets init =? 0) with true in Hn.
  change (wrap_size (num_packets init + 1)) with 1 in Hn.
  cbn iota in Hn. rewrite Hc. cbn [app].
  rewrite num_packets_main_loop by (rewrite Hn; lia).
  rewrite Hn. reflexivity.
Qed.

Lemma out_print_statistics_head st :
  1 <= num_packets st < 2 ^ 64 ->
  exists rest,
    out (print_statistics st)
    = out st ++ Out_transmitted (num_packets st - 1) :: rest.
Proof.
  intros Hn. unfold print_statistics.
  destruct (Z.eqb_spec (num_packets st) 0) as [?|_]; [lia|].
  cbn [num_packets set_num_packets emit].
  rewrite (wrap_size_id (num_packets st - 1)) by in_range.
  destruct (num_packets st - 1 =? 0).
  - exists []. reflexivity.
  - cbv zeta.
    match goal with
    | |- context [print_bins ?b ?i ?k ?lo ?hi ?s] =>
        destruct (print_bins_frame b k i lo hi s) as (rows & Hout & _)
    end.
    rewrite Hout. cbn [out emit set_samples set_num_packets].
    rewrite <- !app_assoc. eexists. reflexivity.
Qed.

(** X6: after a run of at least one iteration the cycle count is one
    more than the number of cycles measured (evaluated with all three
    stamps), and the first line of the report, "packets transmitted",
    prints that number of measured cycles: iterations that found a stamp
    missing and the packet still in flight are not in it. *)
Theorem report_counts_measured_cycles (cfg : config)
    (inputs : list cycle_input) :
  inputs <> [] ->
  Z.of_nat (length inputs) < 2 ^ 64 - 2 ->
  let st := main_loop cfg inputs init in
  let measured := Z.of_nat (length (run_latencies cfg inputs init)) in
  num_packets st = 1 + measured /\
  head (emitted st (print_statistics st)) = Some (Out_transmitted measured).
Proof.
  intros Hne Hlen st measured.
  assert (Hn : num_packets st = 1 + measured)
    by (apply num_packets_run; assumption).
  split; [exact Hn|].
  assert (Hm : (length (run_latencies cfg inputs init) <= length inputs)%nat)
    by apply length_run_latencies.
  destruct (out_print_statistics_head st ltac:(fold measured in Hm; lia))
    as (rest & Hout).
  rewrite (emitted_app _ _ _ Hout). cbn [head]. do 2 f_equal. lia.
Qed.

(** The sample run: five packets written, four cycles measured. *)
Lemma report_counts_measured_cycles_witness :
  num_packets (main_loop example_cfg sample_run init)
  = 1 + Z.of_nat (length (run_latencies example_cfg sample_run init)).
Proof.
  apply (report_counts_measured_cycles example_cfg sample_run);
    [discriminate | simpl; lia].
Defined.

Lemma seqid_cycle cfg inp st :
  seqid st = num_packets st mod 65536 ->
  seqid (cycle cfg inp st) = num_packets (cycle cfg inp st) mod 65536.
Proof.
  intros Hinv.
  assert (Hnext : forall s, seqid s = num_packets s mod 65536 ->
                  seqid (next_cycle s) = num_packets (next_cycle s) mod 65536).
  { intros s Hs.
    destruct (next_cycle_counters s) as (-> & -> & _).
    unfold wrap_u16, wrap_size. rewrite Hs.
    rewrite Z.mod_mod_divide by (exists (2 ^ 48); reflexivity).
    rewrite Z.add_mod_idemp_l by lia. reflexivity. }
  destruct (untouched_transmit cfg inp st) as (Hn & Hq & _).
  destruct (counters_evaluate cfg (transmit cfg inp st)) as (Hn' & Hq' & _).
  rewrite cycle_cases. cbv zeta.
  destruct (num_packets (transmit cfg inp st) =? 0);
    [apply Hnext; congruence|].
  destruct (all_stamped (transmit cfg inp st));
    [apply Hnext; congruence | congruence].
Qed.

(** X7: in every state the loop reaches the sequence counter is the
    cycle count modulo 65536, so it stays within 16 bits and the number
    stamped into a packet tells how many cycles were counted before it. *)
Theorem seqid_tracks_cycle_count (cfg : config) (inputs : list cycle_input) :
  let st := main_loop cfg inputs init in
  seqid st = num_packets st mod 65536 /\ 0 <= seqid st < 65536.
Proof.
  cbv zeta.
  assert (H : forall st, seqid st = num_packets st mod 65536 ->
              seqid (main_loop cfg inputs st)
              = num_packets (main_loop cfg inputs st) mod 65536).
  { induction inputs as [|inp inputs IH]; intros st Hst; cbn [main_loop];
      [exact Hst|]. apply IH, seqid_cycle, Hst. }
  specialize (H init eq_refl). split; [exact H|].
  rewrite H. apply Z.mod_pos_bound. lia.
Qed.

(** ** The packet *)

(** X8: for a 16-bit sequence number the packet is 44 bytes long, every
    byte is within 0..255, byte 0 is 0, byte 1 is 2, bytes 30 and 31 hold
    the sequence number high byte first (so it reads back as
    256 * byte 30 + byte 31), and all other bytes are zero. *)
Theorem payload_sequence (seq : Z) :
  0 <= seq < 65536 ->
  length (payload seq) = 44%nat /\
  Forall (fun b => 0 <= b < 256) (payload seq) /\
  payload seq !!! 0%nat = 0 /\
  payload seq !!! 1%nat = 2 /\
  256 * (payload seq !!! 30%nat) + payload seq !!! 31%nat = seq /\
  forall j : nat,
    (j < 44)%nat -> j <> 1%nat -> j <> 30%nat -> j <> 31%nat ->
    payload seq !!! j = 0.
Proof.
  intros Hseq.
  assert (Hhi : 0 <= seq / 256 < 256).
  { split; [apply Z.div_pos; lia | apply Z.div_lt_upper_bound; lia]. }
  pose proof (Z.mod_pos_bound seq 256 ltac:(lia)) as Hlo.
  pose proof (Z.div_mod seq 256 ltac:(lia)) as Hdm.
  unfold payload. cbn [replicate insert list_insert alter list_alter].
  split; [reflexivity|]. split; [repeat constructor; lia|].
  split; [reflexivity|]. split; [reflexivity|]. split; [cbn; lia|].
  intros j Hj H1 H30 H31.
  do 44 (destruct j as [|j]; [try reflexivity; congruence|]). lia.
Qed.

(** Sequence number 258 is sent as bytes 1 and 2. *)
Lemma payload_sequence_witness :
  256 * (payload 258 !!! 30%nat) + payload 258 !!! 31%nat = 258.
Proof. apply (payload_sequence 258). lia. Defined.

(** ** What a run writes *)

Lemma count_lines_app f l1 l2 :
  count_lines f (l1 ++ l2) = (count_lines f l1 + count_lines f l2)%nat.
Proof. induction l1 as [|o l1 IH]; cbn; [reflexivity | rewrite IH; lia]. Qed.

Lemma out_store_timestamp tl serr st :
  out (store_timestamp tl serr st) = out st.
Proof. unfold store_timestamp. case_conditions; reflexivity. Qed.

Lemma out_recv_timestamp st : out (recv_timestamp st) = out st.
Proof.
  unfold recv_timestamp. destruct (recvmsg (errqueue st)) as [[m q]|];
    [|reflexivity].
  destruct (scan_cmsgs m None None) as [[tl|] [serr|]];
    rewrite ?out_store_timestamp; reflexivity.
Qed.

Lemma out_synchronize events : forall st, out (synchronize events st) = out st.
Proof.
  induction events as [|[m|] events IH]; intros st; cbn [synchronize];
    rewrite ?IH, ?out_recv_timestamp; reflexivity.
Qed.

Lemma seqid_synchronize events :
  forall st, seqid (synchronize events st) = seqid st.
Proof. intros st. apply (untouched_synchronize events st). Qed.

Lemma out_transmit cfg inp st :
  out (transmit cfg inp st) = out st ++ transmit_lines cfg inp st.
Proof.
  unfold transmit, transmit_lines.
  destruct (written inp <? 0); [|destruct (negb (written inp =? 44))];
    cbn [out emit]; rewrite !out_emit_if, out_synchronize, out_emit_if;
    rewrite <- !app_assoc; reflexivity.
Qed.

Lemma out_evaluate_lines cfg st :
  out (evaluate cfg st).1 = out st ++ evaluate_lines cfg st.
Proof.
  unfold evaluate_lines.
  rewrite (emitted_app _ _ _ (out_evaluate cfg st)). apply out_evaluate.
Qed.

(** The lines of one iteration. *)
Lemma out_cycle cfg inp st :
  out (cycle cfg inp st)
  = out st ++ transmit_lines cfg inp st
    ++ (if num_packets st =? 0 then []
        else evaluate_lines cfg (transmit cfg inp st)).
Proof.
  rewrite cycle_cases. cbv zeta.
  destruct (untouched_transmit cfg inp st) as (-> & _).
  destruct (num_packets st =? 0).
  - change (out (next_cycle ?s)) with (out s).
    rewrite out_transmit, app_nil_r. reflexivity.
  - destruct (all_stamped (transmit cfg inp st));
      [change (out (next_cycle ?s)) with (out s)|];
      rewrite out_evaluate_lines, out_transmit, <- app_assoc; reflexivity.
Qed.

Lemma count_transmit_lines cfg inp st :
  count_lines is_sock_write (transmit_lines cfg inp st) = 1%nat /\
  count_lines is_snapshot_write (transmit_lines cfg inp st) = 0%nat /\
  (trace_marker cfg = false ->
   count_lines is_trace (transmit_lines cfg inp st) = 0%nat).
Proof.
  unfold transmit_lines.
  destruct (trace_marker cfg), (written inp <? 0), (negb (written inp =? 44));
    repeat split; intros; try reflexivity; discriminate.
Qed.

Lemma count_evaluate_lines cfg st :
  count_lines is_sock_write (evaluate_lines cfg st) = 0%nat /\
  (count_lines is_snapshot_write (evaluate_lines cfg st) <= 1)%nat /\
  (snapshot cfg = false ->
   count_lines is_snapshot_write (evaluate_lines cfg st) = 0%nat) /\
  (trace_marker cfg = false ->
   count_lines is_trace (evaluate_lines cfg st) = 0%nat).
Proof.
  unfold evaluate_lines.
  rewrite (emitted_app _ _ _ (out_evaluate cfg st)).
  destruct (all_stamped st); cbv zeta.
  - destruct (trace_marker cfg), (snapshot cfg),
      (negb (threshold cfg =? 0)), (threshold cfg <? latency_of st);
      cbn; repeat split; intros; try lia; discriminate.
  - destruct (stamped 0 st), (stamped 1 st), (stamped 2 st), (snapshot cfg);
      cbn; repeat split; intros; try lia; discriminate.
Qed.

Lemma count_main_loop cfg inputs :
  forall st,
    count_lines is_sock_write (out (main_loop cfg inputs st))
    = (count_lines is_sock_write (out st) + length inputs)%nat /\
    (count_lines is_snapshot_write (out (main_loop cfg inputs st))
     <= count_lines is_snapshot_write (out st) + length inputs)%nat /\
    (snapshot cfg = false ->
     count_lines is_snapshot_write (out (main_loop cfg inputs st))
     = count_lines is_snapshot_write (out st)) /\
    (trace_marker cfg = false ->
     count_lines is_trace (out (main_loop cfg inputs st))
     = count_lines is_trace (out st)).
Proof.
  induction inputs as [|inp inputs IH]; intros st; cbn [main_loop length].
  - repeat split; intros; lia.
  - destruct (IH (cycle cfg inp st)) as (Hw & Hle & Hs & Ht).
    rewrite out_cycle, !count_lines_app in Hw, Hle, Hs, Ht.
    destruct (count_transmit_lines cfg inp st) as (Tw & Ts & Tt).
    destruct (count_evaluate_lines cfg (transmit cfg inp st))
      as (Ew & Ele & Es & Et).
    rewrite Tw, Ts in *.
    destruct (num_packets st =? 0); cbn [count_lines] in *.
    + split; [lia|]. split; [lia|]. split; intros Hf.
      * rewrite Hs by assumption. lia.
      * rewrite Ht, Tt by assumption. lia.
    + rewrite Ew in Hw.
      split; [lia|]. split; [lia|]. split; intros Hf.
      * rewrite Hs, Es by assumption. lia.
      * rewrite Ht, Tt, Et by assumption. lia.
Qed.

(** X9: a run writes exactly one packet per iteration, also in the
    iterations that find a stamp missing and whatever [write] returns. *)
Theorem one_packet_per_iteration (cfg : config) (inputs : list cycle_input) :
  count_lines is_sock_write (out (main_loop cfg inputs init)) = length inputs.
Proof. destruct (count_main_loop cfg inputs init) as (-> & _). reflexivity. Qed.

(** X10: the trace files are optional.  A run writes at most one
    snapshot request per iteration; when the snapshot file could not be
    opened it writes none, and when the marker file could not be opened
    it writes no trace line. *)
Theorem trace_files_optional (cfg : config) (inputs : list cycle_input) :
  let o := out (main_loop cfg inputs init) in
  (count_lines is_snapshot_write o <= length inputs)%nat /\
  (snapshot cfg = false -> count_lines is_snapshot_write o = 0%nat) /\
  (trace_marker cfg = false -> count_lines is_trace o = 0%nat).
Proof.
  destruct (count_main_loop cfg inputs init) as (_ & Hle & Hs & Ht).
  cbv zeta. repeat split; [exact Hle | exact Hs | exact Ht].
Qed.

(** The run with one missing stamp and no trace files. *)
Lemma trace_files_optional_witness :
  count_lines is_snapshot_write
    (out (main_loop (Config 1000000 0 100 false false)
                    [first_cycle; sched_only] init)) = 0%nat.
Proof.
  apply (trace_files_optional (Config 1000000 0 100 false false)
           [first_cycle; sched_only]).
  reflexivity.
Defined.

(** X11: an evaluation that finds a stamp missing writes one
    diagnostic for each stage without a stamp and for no other: between
    one and three lines, naming exactly the missing stages. *)
Theorem evaluate_missing_lines (cfg : config) (st : state) :
  all_stamped st = false ->
  let lines := emitted st (evaluate cfg st).1 in
  count_lines is_missing lines = unstamped st /\
  (1 <= unstamped st <= 3)%nat /\
  forall i : nat,
    Err_missing i ∈ lines <-> (i < 3)%nat /\ stamped i st = false.
Proof.
  intros Hall lines. subst lines.
  rewrite (emitted_app _ _ _ (out_evaluate cfg st)), Hall.
  unfold unstamped. unfold all_stamped in Hall.
  destruct (stamped 0 st) eqn:H0, (stamped 1 st) eqn:H1,
    (stamped 2 st) eqn:H2; try discriminate Hall;
    destruct (snapshot cfg); cbn;
    (split; [reflexivity|]); (split; [lia|]);
    intros i; rewrite ?elem_of_cons, ?elem_of_nil;
    destruct i as [|[|[|i]]]; rewrite ?H0, ?H1, ?H2;
    intuition (try discriminate; try congruence; try lia).
Qed.

(** Only the scheduler stamp present: two diagnostics. *)
Lemma evaluate_missing_lines_witness :
  count_lines is_missing
    (emitted (set_tstamps [Timespec 1 0; ts_zero; ts_zero] init)
       (evaluate example_cfg
          (set_tstamps [Timespec 1 0; ts_zero; ts_zero] init)).1) = 2%nat.
Proof.
  apply (evaluate_missing_lines example_cfg
           (set_tstamps [Timespec 1 0; ts_zero; ts_zero] init)).
  reflexivity.
Defined.

(** ** The cycle clock, continued *)

Lemma normalize_below_billion (t : timespec) :
  tv_nsec t < BILLION -> normalize t = t.
Proof.
  funelim (normalize t); intros Hlt; [lia | reflexivity].
Qed.

(** X12: [normalize] moves whole seconds out of a non-negative
    nanoseconds field: the time denoted stays the same, the nanoseconds
    end up below 10^9, and a second call changes nothing.  A time whose
    nanoseconds are already below 10^9, negative ones included, is
    returned as it is. *)
Theorem normalize_canonical (t : timespec) :
  0 <= tv_nsec t ->
  in_long (tv_sec t) ->
  tv_sec t + tv_nsec t / BILLION <= LONG_MAX ->
  total_ns (normalize t) = total_ns t /\
  0 <= tv_nsec (normalize t) < BILLION /\
  normalize (normalize t) = normalize t /\
  forall u : timespec, tv_nsec u < BILLION -> normalize u = u.
Proof.
  intros Hns Hsec Hmax.
  rewrite (normalize_carry t Hns Hsec Hmax).
  pose proof (Z.div_mod (tv_nsec t) BILLION ltac:(unfold BILLION; lia)) as Hdm.
  pose proof (Z.mod_pos_bound (tv_nsec t) BILLION ltac:(unfold BILLION; lia))
    as Hm.
  split; [unfold total_ns; cbn [tv_sec tv_nsec]; lia|].
  split; [exact Hm|].
  split; [apply normalize_below_billion; cbn [tv_nsec]; lia|].
  apply normalize_below_billion.
Qed.

(** 2.5 s written as 0 s + 2500000000 ns becomes 2 s + 500000000 ns. *)
Lemma normalize_canonical_witness :
  total_ns (normalize (Timespec 0 2500000000)) = 2500000000.
Proof.
  apply (normalize_canonical (Timespec 0 2500000000));
    [| split |]; vm_compute; discriminate.
Defined.

(** The target in total nanoseconds, within the range of real clock
    readings and periods. *)
Lemma synchronize_next_total (now : timespec) (P A : Z) :
  0 < P -> 0 <= A ->
  clock_reading now ->
  P + A <= 2 ^ 60 ->
  let next := synchronize_next now P A in
  total_ns next = total_ns now - tv_nsec now + (tv_nsec now / P + 1) * P + A /\
  0 <= tv_sec next <= 2 ^ 32 /\
  0 <= tv_nsec next < BILLION /\
  tv_nsec now < (tv_nsec now / P + 1) * P <= tv_nsec now + P.
Proof.
  intros HP HA ((Hs0 & Hs1) & Hns) Hsum next.
  set (boundary := (tv_nsec now / P + 1) * P).
  assert (Hb : tv_nsec now < boundary <= tv_nsec now + P).
  { subst boundary.
    pose proof (Z.div_mod (tv_nsec now) P ltac:(lia)).
    pose proof (Z.mod_pos_bound (tv_nsec now) P HP). nia. }
  assert (Hq : 0 <= tv_nsec now / P <= tv_nsec now).
  { split; [apply Z.div_pos; lia|].
    apply Z.div_le_upper_bound; [lia|]. nia. }
  subst next. unfold synchronize_next.
  rewrite Z.quot_div_nonneg by lia.
  fold boundary. unfold BILLION in *.
  rewrite (wrap_long_id (tv_nsec now / P + 1)) by in_range.
  fold boundary.
  rewrite (wrap_long_id boundary) by in_range.
  rewrite (wrap_long_id (boundary + A)) by in_range.
  assert (Hd : 0 <= (boundary + A) / 1000000000 <= 2 ^ 31).
  { split; [apply Z.div_pos; lia|].
    apply Z.div_le_upper_bound; lia. }
  rewrite normalize_carry; cbn [tv_sec tv_nsec];
    unfold BILLION, in_long, LONG_MIN, LONG_MAX; try lia.
  unfold total_ns, BILLION. cbn [tv_sec tv_nsec].
  pose proof (Z.div_mod (boundary + A) 1000000000 ltac:(lia)).
  pose proof (Z.mod_pos_bound (boundary + A) 1000000000 ltac:(lia)).
  repeat split; try lia.
Qed.

(** Without overflow the timeout is the remaining time less its 1024th
    part, truncated toward zero. *)
Lemma wait_timeout_exact (next now : timespec) :
  Z.abs (tv_sec next) <= 2 ^ 32 -> Z.abs (tv_sec now) <= 2 ^ 32 ->
  0 <= tv_nsec next < BILLION -> 0 <= tv_nsec now < BILLION ->
  let remaining := total_ns next - total_ns now in
  wait_timeout next now = remaining - Z.quot remaining 1024.
Proof.
  intros Hs1 Hs2 Hn1 Hn2 remaining.
  unfold wait_timeout, total_ns, BILLION in *.
  rewrite (wrap_long_id (tv_sec next - tv_sec now)) by in_range.
  rewrite (wrap_long_id (tv_nsec next - tv_nsec now)) by in_range.
  rewrite (wrap_long_id ((tv_sec next - tv_sec now) * 1000000000))
    by in_range.
  assert (Hr : (tv_sec next - tv_sec now) * 1000000000
               + (tv_nsec next - tv_nsec now) = remaining)
    by (unfold remaining; lia).
  rewrite Hr.
  assert (Hrange : Z.abs remaining <= 2 ^ 33 * 1000000000 + 1000000000)
    by (unfold remaining; lia).
  rewrite (wrap_long_id remaining) by in_range.
  pose proof (Z.quot_rem' remaining 1024) as Hqr.
  pose proof (Z.rem_bound_abs remaining 1024 ltac:(lia)) as Hrb.
  apply wrap_long_id. clearbody remaining.
  unfold in_long, LONG_MIN, LONG_MAX. lia.
Qed.

(** X13: the first timeout of a [synchronize] call.  With a period
    P > 0 and an offset A >= 0 the time from the clock reading to the
    target is positive and at most P + A; the timeout handed to
    [pselect] is that time less its 1024th part: positive, never longer
    than the time left, and short of it by remaining / 1024. *)
Theorem first_wait_timeout (now : timespec) (P A : Z) :
  0 < P -> 0 <= A ->
  clock_reading now ->
  P + A <= 2 ^ 60 ->
  let next := synchronize_next now P A in
  let remaining := total_ns next - total_ns now in
  let timeout := wait_timeout next now in
  0 < remaining <= P + A /\
  0 < timeout <= remaining /\
  remaining - timeout = remaining / 1024.
Proof.
  intros HP HA Hnow Hsum next remaining timeout.
  destruct (synchronize_next_total now P A HP HA Hnow Hsum)
    as (Htot & (Hs0 & Hs1) & Hns & Hb).
  fold next in Htot, Hs0, Hs1, Hns.
  destruct Hnow as ((Hn0 & Hn1) & Hnn).
  assert (Hrem : 0 < remaining <= P + A) by (unfold remaining; lia).
  assert (Ht : timeout = remaining - Z.quot remaining 1024).
  { apply wait_timeout_exact; try assumption; lia. }
  rewrite Z.quot_div_nonneg in Ht by lia.
  assert (Hq : 0 <= remaining / 1024 < remaining).
  { split; [apply Z.div_pos; lia | apply Z.div_lt_upper_bound; lia]. }
  repeat split; lia.
Qed.

(** One nanosecond before a second boundary, period 1 ms, offset 150 us:
    150001 ns to wait. *)
Lemma first_wait_timeout_witness :
  0 < wait_timeout (synchronize_next (Timespec 5 999999999) 1000000 150000)
                   (Timespec 5 999999999)
  <= total_ns (synchronize_next (Timespec 5 999999999) 1000000 150000)
     - total_ns (Timespec 5 999999999).
Proof.
  apply (first_wait_timeout (Timespec 5 999999999) 1000000 150000);
    unfold clock_reading, BILLION; cbn; lia.
Defined.

Lemma wait_error_exact (now next : timespec) :
  Z.abs (tv_sec next) <= 2 ^ 32 -> Z.abs (tv_sec now) <= 2 ^ 32 ->
  0 <= tv_nsec next < BILLION -> 0 <= tv_nsec now < BILLION ->
  wait_error now next = total_ns now - total_ns next.
Proof.
  intros Hs1 Hs2 Hn1 Hn2.
  unfold wait_error, total_ns, BILLION in *.
  rewrite (wrap_long_id (tv_sec now - tv_sec next)) by in_range.
  rewrite (wrap_long_id (tv_nsec now - tv_nsec next)) by in_range.
  rewrite (wrap_long_id ((tv_sec now - tv_sec next) * 1000000000))
    by in_range.
  rewrite wrap_long_id by in_range. lia.
Qed.

(** X14: the phase lock of the wait loop.  The error computed after a
    wake-up is the clock reading minus the target in nanoseconds, and
    another round follows exactly when the wake-up is more than 50000 ns
    early.  A wake-up exactly at the end of the timeout, with the target
    still ahead, is early by the 1024th part of the time that was left,
    so each such round divides the distance to the target by 1024. *)
Theorem wait_round (next now woke : timespec) :
  clock_reading next -> clock_reading now -> clock_reading woke ->
  let remaining := total_ns next - total_ns now in
  wait_error woke next = total_ns woke - total_ns next /\
  (wait_again woke next = true <-> total_ns woke + 50000 < total_ns next) /\
  (0 <= remaining ->
   total_ns woke = total_ns now + wait_timeout next now ->
   wait_error woke next = - (remaining / 1024) /\
   (wait_again woke next = true <-> 50000 < remaining / 1024)).
Proof.
  intros ((Ha & Hb) & Hc) ((Hd & He) & Hf) ((Hg & Hh) & Hi) remaining.
  assert (Herr : wait_error woke next = total_ns woke - total_ns next)
    by (apply wait_error_exact; try assumption; lia).
  assert (Hagain : forall e, wait_error woke next = e ->
                   (wait_again woke next = true <-> e < -50000)).
  { intros e <-. unfold wait_again. apply Z.ltb_lt. }
  split; [exact Herr|]. split.
  - rewrite (Hagain _ Herr). lia.
  - intros Hrem Hwoke.
    assert (Ht : wait_timeout next now = remaining - Z.quot remaining 1024)
      by (apply wait_timeout_exact; try assumption; lia).
    rewrite Z.quot_div_nonneg in Ht by lia.
    assert (He' : wait_error woke next = - (remaining / 1024))
      by (rewrite Herr, Hwoke, Ht; unfold remaining; lia).
    split; [exact He'|]. rewrite (Hagain _ He'). lia.
Qed.

(** One second before the target the first exact wake-up is 976562 ns
    early, so a second round follows. *)
Lemma wait_round_witness :
  wait_again (Timespec 5 999023438) (Timespec 6 0) = true
  <-> 50000 < (total_ns (Timespec 6 0) - total_ns (Timespec 5 0)) / 1024.
Proof.
  apply (wait_round (Timespec 6 0) (Timespec 5 0) (Timespec 5 999023438));
    unfold clock_reading, BILLION; cbn; try lia.
  - vm_compute. discriminate.
  - vm_compute. reflexivity.
Defined.

(** ** The collector during a wait *)

(** X16: the error queue is first in, first out.  After a wait the
    queue holds what is left of the messages queued before followed by
    those that arrived, with some from the front taken: at most one for
    each readiness report, and none is lost or reordered. *)
Theorem synchronize_fifo (events : list wait_event) (st : state) :
  exists k : nat,
    (k <= readables events)%nat /\
    errqueue (synchronize events st)
    = drop k (errqueue st ++ arrivals events).
Proof.
  revert st.
  induction events as [|[m|] events IH]; intros st;
    cbn [synchronize arrivals readables].
  - exists 0%nat. rewrite drop_0, app_nil_r. auto.
  - destruct (IH (set_errqueue (errqueue st ++ [m]) st)) as (k & Hk & ->).
    exists k. split; [exact Hk|]. cbn [errqueue set_errqueue].
    rewrite <- app_assoc. reflexivity.
  - destruct (IH (recv_timestamp st)) as (k & Hk & ->).
    rewrite errqueue_recv_timestamp.
    destruct (errqueue st) as [|m q]; cbn [tail].
    + exists k. split; [lia | reflexivity].
    + exists (S k). split; [lia | reflexivity].
Qed.

Lemma stamped_store_timestamp tl serr st (i : nat) :
  i = 1%nat \/ i = 2%nat ->
  stamped i st = true ->
  stamped i (store_timestamp tl serr st) = true.
Proof.
  intros Hi Hst. unfold store_timestamp.
  destruct (ee_info serr =? SCM_TSTAMP_SCHED).
  { unfold stamped in *. cbn [tstamps set_tstamps].
    rewrite list_lookup_total_insert_ne by lia. exact Hst. }
  destruct (ee_info serr =? SCM_TSTAMP_SND); cbn [andb]; [|exact Hst].
  destruct (negb (tv_sec (ts tl !!! 0%nat) =? 0)) eqn:H0.
  { unfold stamped in *. cbn [tstamps set_tstamps].
    rewrite list_lookup_total_insert. case_decide; [exact H0 | exact Hst]. }
  destruct (negb (tv_sec (ts tl !!! 2%nat) =? 0)) eqn:H2; [|exact Hst].
  unfold stamped in *. cbn [tstamps set_tstamps].
  rewrite list_lookup_total_insert. case_decide; [exact H2 | exact Hst].
Qed.

Lemma stamped_recv_timestamp st (i : nat) :
  i = 1%nat \/ i = 2%nat ->
  stamped i st = true -> stamped i (recv_timestamp st) = true.
Proof.
  intros Hi Hst. unfold recv_timestamp.
  destruct (recvmsg (errqueue st)) as [[m q]|]; [|exact Hst].
  destruct (scan_cmsgs m None None) as [[tl|] [serr|]]; try exact Hst.
  apply stamped_store_timestamp; assumption.
Qed.

(** X17: during a wait the driver and wire stamps are only ever
    replaced by present stamps: once one of them is present it stays
    present until the record is cleared, whatever messages arrive.  The
    scheduler stamp has no such guard: an "entered scheduler" message
    with zero seconds makes it absent. *)
Theorem wait_keeps_driver_and_wire (events : list wait_event) (st : state)
    (i : nat) :
  i = 1%nat \/ i = 2%nat ->
  stamped i st = true ->
  stamped i (synchronize events st) = true /\
  forall tl : scm_timestamping,
    length (tstamps st) = 3%nat ->
    tv_sec (ts tl !!! 0%nat) = 0 ->
    stamped 0 (store_timestamp tl (SockExtendedErr SCM_TSTAMP_SCHED) st)
    = false.
Proof.
  intros Hi Hst. split.
  - revert st Hst.
    induction events as [|[m|] events IH]; intros st Hst; cbn [synchronize].
    + exact Hst.
    + apply IH. exact Hst.
    + apply IH, stamped_recv_timestamp; assumption.
  - intros tl Hlen Hz. unfold store_timestamp, stamped.
    cbn [ee_info]. change (SCM_TSTAMP_SCHED =? SCM_TSTAMP_SCHED) with true.
    cbn [tstamps set_tstamps].
    rewrite list_lookup_total_insert_eq by lia. rewrite Hz. reflexivity.
Qed.

(** A present wire stamp survives a later hardware notification with a
    zero stamp. *)
Lemma wait_keeps_driver_and_wire_witness :
  stamped 2
    (synchronize [Arrival (tstamp_msg SCM_TSTAMP_SND ts_zero ts_zero); Readable]
       (set_tstamps shifted_example init)) = true.
Proof.
  apply (wait_keeps_driver_and_wire
           [Arrival (tstamp_msg SCM_TSTAMP_SND ts_zero ts_zero); Readable]
           (set_tstamps shifted_example init) 2);
    [right; reflexivity | reflexivity].
Defined.

Lemma recv_sched np mn mx sm bn a b c sq q o (t : timespec) :
  recv_timestamp
    (State np mn mx sm bn [a; b; c] sq
           (tstamp_msg SCM_TSTAMP_SCHED t ts_zero :: q) o)
  = State np mn mx sm bn [t; b; c] sq q o.
Proof. reflexivity. Qed.

Lemma recv_driver np mn mx sm bn a b c sq q o (t : timespec) :
  tv_sec t <> 0 ->
  recv_timestamp
    (State np mn mx sm bn [a; b; c] sq
           (tstamp_msg SCM_TSTAMP_SND t ts_zero :: q) o)
  = State np mn mx sm bn [a; t; c] sq q o.
Proof.
  intros Ht. unfold recv_timestamp, tstamp_msg. cbn.
  unfold store_timestamp. cbn.
  rewrite (proj2 (Z.eqb_neq (tv_sec t) 0) Ht). reflexivity.
Qed.

Lemma recv_wire np mn mx sm bn a b c sq q o (t : timespec) :
  tv_sec t <> 0 ->
  recv_timestamp
    (State np mn mx sm bn [a; b; c] sq
           (tstamp_msg SCM_TSTAMP_SND ts_zero t :: q) o)
  = State np mn mx sm bn [a; b; t] sq q o.
Proof.
  intros Ht. unfold recv_timestamp, tstamp_msg. cbn.
  unfold store_timestamp. cbn.
  rewrite (proj2 (Z.eqb_neq (tv_sec t) 0) Ht). reflexivity.
Qed.

(** X18: the three notifications of a packet may arrive in any order.
    Starting from an empty queue, when the scheduler, driver and wire
    notifications arrive in some order and are then read, the record
    holds the three stamps in their places and the queue is empty
    again. *)
Theorem notifications_any_order (sched driver wire : timespec)
    (l : list msghdr) (st : state) :
  length (tstamps st) = 3%nat ->
  errqueue st = [] ->
  tv_sec driver <> 0 -> tv_sec wire <> 0 ->
  l ≡ₚ [tstamp_msg SCM_TSTAMP_SCHED sched ts_zero;
        tstamp_msg SCM_TSTAMP_SND driver ts_zero;
        tstamp_msg SCM_TSTAMP_SND ts_zero wire] ->
  let st' := synchronize (map Arrival l ++ replicate 3 Readable) st in
  tstamps st' = [sched; driver; wire] /\ errqueue st' = [].
Proof.
  intros Hlen Hq Hd Hw Hperm.
  destruct st as [np mn mx sm bn tsl sq eq o]. cbn in Hlen, Hq. subst eq.
  destruct tsl as [|a [|b [|c [|? ?]]]]; try discriminate Hlen.
  symmetry in Hperm. apply permutations_Permutation in Hperm.
  cbn in Hperm. rewrite !elem_of_cons, elem_of_nil in Hperm.
  destruct Hperm as [->|[->|[->|[->|[->|[->|[]]]]]]];
    cbn [map app replicate synchronize]; unfold set_errqueue;
    cbn [app num_packets min_lat max_lat samples bins tstamps seqid
         errqueue out];
    rewrite ?recv_sched, ?recv_driver, ?recv_wire by assumption;
    rewrite ?recv_sched, ?recv_driver, ?recv_wire by assumption;
    rewrite ?recv_sched, ?recv_driver, ?recv_wire by assumption;
    split; reflexivity.
Qed.

(** The wire notification first, the scheduler notification last. *)
Lemma notifications_any_order_witness :
  tstamps
    (synchronize
       (map Arrival [tstamp_msg SCM_TSTAMP_SND ts_zero (Timespec 1 120000);
                     tstamp_msg SCM_TSTAMP_SND (Timespec 1 50000) ts_zero;
                     tstamp_msg SCM_TSTAMP_SCHED (Timespec 1 0) ts_zero]
        ++ replicate 3 Readable) init)
  = [Timespec 1 0; Timespec 1 50000; Timespec 1 120000].
Proof.
  apply (notifications_any_order (Timespec 1 0) (Timespec 1 50000)
           (Timespec 1 120000) _ init);
    [reflexivity | reflexivity | discriminate | discriminate |].
  rewrite (Permutation_swap _ _ _). symmetry.
  apply (Permutation_cons_append
           [tstamp_msg SCM_TSTAMP_SND (Timespec 1 50000) ts_zero;
            tstamp_msg SCM_TSTAMP_SND ts_zero (Timespec 1 120000)]).
Defined.

(** ** The report, continued *)

Lemma out_print_bins (b : list Z) (st : state) :
  out (print_bins b 0 (NBINS - 1) 0 BIN0 st) = out st ++ distribution_rows b.
Proof.
  change (NBINS - 1)%nat with 11%nat. cbn [print_bins out emit].
  rewrite <- !app_assoc. f_equal.
Qed.

Lemma fields_print_bins (b : list Z) (n : nat) :
  forall (i : nat) (low high : Z) (st : state),
    statistics (print_bins b i n low high st) = statistics st /\
    num_packets (print_bins b i n low high st) = num_packets st.
Proof.
  induction n as [|n IH]; intros i low high st; cbn [print_bins].
  - split; reflexivity.
  - destruct (IH (S i) (wrap_long (high + 1)) (wrap_long (Z.shiftl high 1))
                 (emit (Out_bin low high (b !!! i)) st)) as (-> & ->).
    split; reflexivity.
Qed.

(** The whole report when at least one cycle was measured. *)
Lemma out_print_statistics (st : state) :
  1 < num_packets st < 2 ^ 64 ->
  let n := Z.to_nat (Z.min (num_packets st - 1) NSAMPLES) in
  let window := qsort (take n (samples st)) ++ drop n (samples st) in
  out (print_statistics st)
  = out st
    ++ Out_transmitted (num_packets st - 1)
       :: Out_latency (min_lat st) (window !!! (n / 2)%nat) (max_lat st)
       :: Out_distribution :: distribution_rows (bins st).
Proof.
  intros Hnp n window. unfold print_statistics.
  destruct (Z.eqb_spec (num_packets st) 0) as [?|_]; [lia|].
  cbn [num_packets set_num_packets emit].
  rewrite (wrap_size_id (num_packets st - 1)) by in_range.
  destruct (Z.eqb_spec (num_packets st - 1) 0) as [?|_]; [lia|].
  cbv zeta. cbn [samples set_samples emit min_lat max_lat bins].
  assert (Hn : (if NSAMPLES <? num_packets st - 1 then NSAMPLES
                else num_packets st - 1)
               = Z.min (num_packets st - 1) NSAMPLES).
  { destruct (Z.ltb_spec NSAMPLES (num_packets st - 1)); lia. }
  rewrite Hn, out_print_bins. fold n. fold window.
  cbn [out emit set_samples set_num_packets]. rewrite <- !app_assoc.
  cbn [app].
  replace (Z.to_nat (Z.min (num_packets st - 1) NSAMPLES / 2))
    with (n / 2)%nat; [reflexivity|].
  unfold n. rewrite Z2Nat.inj_div by (unfold NSAMPLES; lia). reflexivity.
Qed.

(** X19: the printed distribution.  When at least one cycle was
    measured the report is the count, the min/median/max line, the header
    and twelve rows labelled 0-32, 33-64, 65-128, ..., 16385-32768 and
    "> 32768", row i showing counter i.  The labels are one off against
    what the counters count: a latency equal to the upper label of one of
    the first eleven rows is counted in the next row. *)
Theorem print_statistics_rows (st : state) :
  1 < num_packets st < 2 ^ 64 ->
  (exists med,
     emitted st (print_statistics st)
     = Out_transmitted (num_packets st - 1)
       :: Out_latency (min_lat st) med (max_lat st)
       :: Out_distribution :: distribution_rows (bins st)) /\
  forall i : nat,
    (i <= 10)%nat ->
    exists low count,
      distribution_rows (bins st) !! i
      = Some (Out_bin low (32 * 2 ^ Z.of_nat i) count) /\
      bins (update_statistics (32 * 2 ^ Z.of_nat i) st)
      = incr_at (S i) (bins st).
Proof.
  intros Hnp. split.
  - eexists. apply emitted_app. apply (out_print_statistics st Hnp).
  - intros i Hi. rewrite bins_update_statistics.
    do 11 (destruct i as [|i]; [eexists _, _; split; reflexivity|]). lia.
Qed.

(** After the sample run the report counts four measured cycles. *)
Lemma print_statistics_rows_witness :
  exists med,
    emitted (main_loop example_cfg sample_run init)
      (print_statistics (main_loop example_cfg sample_run init))
    = Out_transmitted (5 - 1)
      :: Out_latency 200 med 300
      :: Out_distribution
      :: distribution_rows (bins (main_loop example_cfg sample_run init)).
Proof.
  apply (print_statistics_rows (main_loop example_cfg sample_run init)).
  vm_compute. split; reflexivity.
Defined.

(** X20: with a cycle count of 0 or 1 (no cycle measured yet) the
    report is the single line "0 packets transmitted": no latency line,
    no distribution, and the sample window is not sorted. *)
Theorem print_statistics_nothing_measured (st : state) :
  0 <= num_packets st <= 1 ->
  emitted st (print_statistics st) = [Out_transmitted 0] /\
  statistics (print_statistics st) = statistics st.
Proof.
  intros Hnp. unfold print_statistics.
  destruct (Z.eqb_spec (num_packets st) 0) as [Hz|Hnz].
  - cbn [num_packets emit]. rewrite Hz. cbn [Z.eqb].
    split; [apply emitted_app|]; reflexivity.
  - assert (H1 : num_packets st = 1) by lia.
    cbn [num_packets set_num_packets emit]. rewrite H1.
    change (wrap_size (1 - 1)) with 0. cbn [Z.eqb].
    split; [apply emitted_app|]; reflexivity.
Qed.

(** The report right after the first iteration. *)
Lemma print_statistics_nothing_measured_witness :
  emitted (main_loop example_cfg [first_cycle] init)
    (print_statistics (main_loop example_cfg [first_cycle] init))
  = [Out_transmitted 0].
Proof.
  apply (print_statistics_nothing_measured
           (main_loop example_cfg [first_cycle] init)).
  vm_compute. split; discriminate.
Defined.

(** X21: a run in which exactly one cycle was measured reports
    "1 packets transmitted" although the statistics hold no sample: the
    minimum and maximum printed are the start values [LONG_MAX] and
    [LONG_MIN], and the median is the 0 of the untouched window. *)
Theorem single_cycle_report (cfg : config) (inputs : list cycle_input) :
  Z.of_nat (length inputs) < 2 ^ 64 - 2 ->
  length (run_latencies cfg inputs init) = 1%nat ->
  let st := main_loop cfg inputs init in
  take 2 (emitted st (print_statistics st))
  = [Out_transmitted 1; Out_latency LONG_MAX 0 LONG_MIN].
Proof.
  intros Hlen Hone st.
  assert (Hne : inputs <> []).
  { intros ->. discriminate Hone. }
  pose proof (num_packets_run cfg inputs Hne Hlen) as Hn.
  rewrite Hone in Hn. fold st in Hn.
  pose proof (statistics_main_loop cfg inputs Hlen) as Hs.
  unfold counted_samples in Hs.
  destruct (run_latencies cfg inputs init) as [|L [|? ?]];
    try discriminate Hone.
  cbn [tail feed] in Hs. fold st in Hs.
  unfold statistics in Hs. cbn [min_lat max_lat samples bins set_num_packets init]
    in Hs.
  injection Hs as Hmin Hmax Hsam _.
  rewrite (emitted_app _ _ _ (out_print_statistics st ltac:(rewrite Hn; lia))).
  rewrite Hn, Hmin, Hmax, Hsam. cbn [take]. reflexivity.
Qed.

(** The first completed cycle alone. *)
Lemma single_cycle_report_witness :
  take 2
    (emitted (main_loop example_cfg [first_cycle; complete 120] init)
       (print_statistics
          (main_loop example_cfg [first_cycle; complete 120] init)))
  = [Out_transmitted 1; Out_latency LONG_MAX 0 LONG_MIN].
Proof.
  apply (single_cycle_report example_cfg [first_cycle; complete 120]);
    [simpl; lia | reflexivity].
Defined.
